(** * fs-vector: the directory walker, batch upserter and query dispatcher
    of [chromadb_cli.py], embedded in Rocq.

    Conventions of the embedding.
    - A Python [str] is a Rocq [string] holding the UTF-8 bytes of the text
      (file names that are not valid UTF-8 are outside the model).
    - [os.path] is [posixpath].
    - The file system is a finite tree; what [os.path.getsize] and
      [open(...).read()] answer for a file is recorded in its node.
    - The vector store is an external collaborator: its contents are a finite
      map from ids to records, the calls made to it are kept in a trace, and
      its similarity search is an oracle carried by the environment.
    - Standard output and standard error are lists with one entry per
      [print] call (the text of the line, without its final newline). *)

From Stdlib Require Import ZArith String Ascii List Lia SpecFloat.
From stdpp Require Import gmap strings list.
Import ListNotations.
Local Open Scope Z_scope.

(** ** Python string operations used by the program *)
Module PyStr.

(** [s[i:i+1]], the empty string out of range. *)
Definition at_ (s : string) (i : Z) : string :=
  if i <? 0 then "" else String.substring (Z.to_nat i) 1 s.

(** [s[:k]] and [s[k:]] for [0 <= k]. *)
Definition upto (s : string) (k : Z) : string :=
  String.substring 0 (Z.to_nat k) s.
Definition from (s : string) (k : Z) : string :=
  String.substring (Z.to_nat k) (String.length s - Z.to_nat k) s.

Fixpoint rfind_from (c : ascii) (s : string) (i last : Z) : Z :=
  match s with
  | EmptyString => last
  | String a s' => rfind_from c s' (i + 1) (if Ascii.eqb a c then i else last)
  end.

(** [s.rfind(c)] for a one-character [c]: the last index, or -1. *)
Definition rfind (s : string) (c : ascii) : Z := rfind_from c s 0 (-1).

Definition startswith (s pre : string) : bool := String.prefix pre s.

Fixpoint endswith_char (s : string) (c : ascii) : bool :=
  match s with
  | EmptyString => false
  | String a EmptyString => Ascii.eqb a c
  | String _ s' => endswith_char s' c
  end.

(** [s.split(c)] for a one-character separator: never the empty list. *)
Fixpoint split (c : ascii) (s : string) : list string :=
  match s with
  | EmptyString => [EmptyString]
  | String a s' =>
      if Ascii.eqb a c then EmptyString :: split c s'
      else match split c s' with
           | [] => [String a EmptyString]
           | w :: ws => String a w :: ws
           end
  end.

(** [sep.join(l)]. *)
Fixpoint join (sep : string) (l : list string) : string :=
  match l with
  | [] => ""
  | [x] => x
  | x :: xs => x +:+ sep +:+ join sep xs
  end.

Definition lower_ascii (a : ascii) : ascii :=
  let n := Z.of_nat (nat_of_ascii a) in
  if (65 <=? n) && (n <=? 90) then ascii_of_nat (Z.to_nat (n + 32)) else a.

(** [s.lower()].  ASCII letters are mapped to lower case.  Of the
    characters outside ASCII, the only one whose lower case consists of
    ASCII characters only is U+212A KELVIN SIGN (UTF-8 E2 84 AA), which
    becomes "k"; every other one lowers to text that again holds a
    character outside ASCII and is left as it is here, which keeps
    comparisons with ASCII strings exact. *)
Fixpoint lower (s : string) : string :=
  match s with
  | EmptyString => EmptyString
  | String a s' =>
      match a, s' with
      | "226"%char, String "132"%char (String "170"%char s'') =>
          String "k"%char (lower s'')
      | _, _ => String (lower_ascii a) (lower s')
      end
  end.

End PyStr.

(** ** [os.path] on POSIX *)
Module OsPath.

Definition sep : ascii := "/"%char.
Definition extsep : ascii := "."%char.
Definition curdir : string := ".".
Definition pardir : string := "..".

(** The [while filenameIndex < dotIndex] loop of [genericpath._splitext];
    [n] counts the iterations left. *)
Fixpoint splitext_loop (n : nat) (p : string) (filenameIndex dotIndex : Z)
  : option (string * string) :=
  match n with
  | O => None
  | S n' =>
      if negb (String.eqb (PyStr.at_ p filenameIndex) (String extsep ""))
      then Some (PyStr.upto p dotIndex, PyStr.from p dotIndex)
      else splitext_loop n' p (filenameIndex + 1) dotIndex
  end.

(** [os.path.splitext(p)]. *)
Definition splitext (p : string) : string * string :=
  let sepIndex := PyStr.rfind p sep in
  let dotIndex := PyStr.rfind p extsep in
  if sepIndex <? dotIndex then
    let filenameIndex := sepIndex + 1 in
    match splitext_loop (Z.to_nat (dotIndex - filenameIndex)) p
                        filenameIndex dotIndex with
    | Some r => r
    | None => (p, "")
    end
  else (p, "").

(** [os.path.join(a, b)]. *)
Definition join (a b : string) : string :=
  if PyStr.startswith b (String sep "") then b
  else if String.eqb a "" || PyStr.endswith_char a sep then a +:+ b
  else a +:+ String sep "" +:+ b.

Definition isabs (p : string) : bool := PyStr.startswith p (String sep "").

(** The loop of [normpath] over the components, [new_comps] kept in
    reverse. *)
Fixpoint normpath_loop (initial_slashes : Z) (comps : list string)
                       (rev_new : list string) : list string :=
  match comps with
  | [] => rev rev_new
  | comp :: rest =>
      if String.eqb comp "" || String.eqb comp curdir
      then normpath_loop initial_slashes rest rev_new
      else if negb (String.eqb comp pardir)
              || ((initial_slashes =? 0) && match rev_new with [] => true | _ => false end)
              || match rev_new with
                 | last :: _ => String.eqb last pardir
                 | [] => false
                 end
      then normpath_loop initial_slashes rest (comp :: rev_new)
      else normpath_loop initial_slashes rest (tl rev_new)
  end.

(** [os.path.normpath(path)]. *)
Definition normpath (path : string) : string :=
  if String.eqb path "" then curdir else
  let initial_slashes :=
    if PyStr.startswith path "/" then
      if PyStr.startswith path "//" && negb (PyStr.startswith path "///")
      then 2 else 1
    else 0 in
  let comps := normpath_loop initial_slashes (PyStr.split sep path) [] in
  let path' := PyStr.join "/" comps in
  let path' := if initial_slashes =? 2 then "//" +:+ path'
               else if initial_slashes =? 1 then "/" +:+ path'
               else path' in
  if String.eqb path' "" then curdir else path'.

(** [os.path.abspath(path)] with the current directory [cwd]. *)
Definition abspath (cwd path : string) : string :=
  normpath (if isabs path then path else join cwd path).

Fixpoint join_all (a : string) (p : list string) : string :=
  match p with
  | [] => a
  | b :: p' => join_all (join a b) p'
  end.

(** [len(commonprefix([l1, l2]))] on two lists of components. *)
Fixpoint common_len (l1 l2 : list string) : nat :=
  match l1, l2 with
  | x :: l1', y :: l2' => if String.eqb x y then S (common_len l1' l2') else O
  | _, _ => O
  end.

Definition nonempty_comps (p : string) : list string :=
  filter (fun x => negb (String.eqb x "")) (PyStr.split sep p).

(** [os.path.relpath(path, start)] for a non-empty [path] (the empty one
    raises [ValueError]; the walker only passes joined absolute paths). *)
Definition relpath (cwd path start : string) : string :=
  let start_list := nonempty_comps (abspath cwd start) in
  let path_list := nonempty_comps (abspath cwd path) in
  let i := common_len start_list path_list in
  let rel_list := repeat pardir (length start_list - i) ++ skipn i path_list in
  match rel_list with
  | [] => curdir
  | a :: p => join_all a p
  end.

End OsPath.

(** ** Decimal and hexadecimal rendering of integers *)
Module PyInt.

Definition digit (d : Z) : ascii := ascii_of_nat (Z.to_nat (48 + d)).

Fixpoint dec_loop (fuel : nat) (n : Z) (acc : string) : string :=
  match fuel with
  | O => acc
  | S fuel' =>
      let acc' := String (digit (n mod 10)) acc in
      if n <? 10 then acc' else dec_loop fuel' (n / 10) acc'
  end.

(** [str(n)] for [0 <= n]. *)
Definition dec (n : Z) : string := dec_loop (S (Z.to_nat (Z.log2 n))) n "".

(** [str(n)] for any integer. *)
Definition str (n : Z) : string :=
  if n <? 0 then String "-"%char (dec (- n)) else dec n.

Definition hex_digit (d : Z) : ascii :=
  if d <? 10 then ascii_of_nat (Z.to_nat (48 + d))
  else ascii_of_nat (Z.to_nat (87 + d)).

(** Two lower-case hexadecimal digits of a byte. *)
Definition hex_byte (b : Z) (rest : string) : string :=
  String (hex_digit (Z.shiftr b 4)) (String (hex_digit (Z.land b 15)) rest).

End PyInt.

(** ** [hashlib.sha256], after FIPS 180-4, on 32-bit words held in [Z] *)
Module Sha256.

Definition mask32 : Z := 0xffffffff.
Definition add32 (x y : Z) : Z := Z.land (x + y) mask32.
Definition rotr (n x : Z) : Z :=
  Z.lor (Z.shiftr x n) (Z.land (Z.shiftl x (32 - n)) mask32).
Definition not32 (x : Z) : Z := Z.lxor x mask32.

Definition Ch (x y z : Z) : Z := Z.lxor (Z.land x y) (Z.land (not32 x) z).
Definition Maj (x y z : Z) : Z :=
  Z.lxor (Z.lxor (Z.land x y) (Z.land x z)) (Z.land y z).
Definition Sigma0 (x : Z) : Z := Z.lxor (Z.lxor (rotr 2 x) (rotr 13 x)) (rotr 22 x).
Definition Sigma1 (x : Z) : Z := Z.lxor (Z.lxor (rotr 6 x) (rotr 11 x)) (rotr 25 x).
Definition sigma0 (x : Z) : Z := Z.lxor (Z.lxor (rotr 7 x) (rotr 18 x)) (Z.shiftr x 3).
Definition sigma1 (x : Z) : Z := Z.lxor (Z.lxor (rotr 17 x) (rotr 19 x)) (Z.shiftr x 10).

(** The first [n] primes. *)
Definition is_prime (p : Z) : bool :=
  forallb (fun d => negb (p mod Z.of_nat d =? 0)) (seq 2 (Z.to_nat p - 2)).

Definition primes (n : nat) : list Z :=
  firstn n (List.filter is_prime (map Z.of_nat (seq 2 400))).

(** Integer cube root of a number below 2^105, one bit at a time. *)
Definition icbrt (x : Z) : Z :=
  fold_left (fun r b => let r' := r + 2 ^ Z.of_nat b in
                        if r' * r' * r' <=? x then r' else r)
            (rev (seq 0 35)) 0.

(** The round constants: the first 32 bits of the fractional parts of the
    cube roots of the first 64 primes. *)
Definition K : list Z :=
  map (fun p => Z.land (icbrt (p * 2 ^ 96)) mask32) (primes 64).

(** The initial hash value: the first 32 bits of the fractional parts of
    the square roots of the first 8 primes. *)
Definition H0 : list Z :=
  map (fun p => Z.land (Z.sqrt (p * 2 ^ 64)) mask32) (primes 8).

(** Padding: a 1 bit, zeros up to 56 mod 64, then the bit length on 8
    bytes, big-endian. *)
Definition be_bytes (n : nat) (x : Z) : list Z :=
  map (fun i => Z.land (Z.shiftr x (8 * Z.of_nat i)) 255) (rev (seq 0 n)).

Definition pad (msg : list Z) : list Z :=
  let l := Z.of_nat (length msg) in
  let k := (55 - l) mod 64 in
  msg ++ [128] ++ repeat 0 (Z.to_nat k) ++ be_bytes 8 (8 * l).

Fixpoint words (fuel : nat) (bs : list Z) : list Z :=
  match fuel, bs with
  | S fuel', b0 :: b1 :: b2 :: b3 :: rest =>
      (Z.shiftl b0 24 + Z.shiftl b1 16 + Z.shiftl b2 8 + b3) :: words fuel' rest
  | _, _ => []
  end.

(** The message schedule, most recent word first. *)
Fixpoint schedule (n : nat) (rev_w : list Z) : list Z :=
  match n with
  | O => rev_w
  | S n' =>
      let wt := add32 (add32 (add32 (sigma1 (nth 1 rev_w 0)) (nth 6 rev_w 0))
                             (sigma0 (nth 14 rev_w 0))) (nth 15 rev_w 0) in
      schedule n' (wt :: rev_w)
  end.

Record regs := { ra : Z; rb : Z; rc : Z; rd : Z; re : Z; rf : Z; rg : Z; rh : Z }.

Definition round (r : regs) (kw : Z * Z) : regs :=
  let t1 := add32 (add32 (add32 (add32 (rh r) (Sigma1 (re r)))
                                (Ch (re r) (rf r) (rg r))) (fst kw)) (snd kw) in
  let t2 := add32 (Sigma0 (ra r)) (Maj (ra r) (rb r) (rc r)) in
  {| ra := add32 t1 t2; rb := ra r; rc := rb r; rd := rc r;
     re := add32 (rd r) t1; rf := re r; rg := rf r; rh := rg r |}.

Definition compress (h : list Z) (block : list Z) : list Z :=
  let w := rev (schedule 48 (rev block)) in
  let r0 := {| ra := nth 0 h 0; rb := nth 1 h 0; rc := nth 2 h 0; rd := nth 3 h 0;
               re := nth 4 h 0; rf := nth 5 h 0; rg := nth 6 h 0; rh := nth 7 h 0 |} in
  let r := fold_left round (combine K w) r0 in
  [ add32 (nth 0 h 0) (ra r); add32 (nth 1 h 0) (rb r);
    add32 (nth 2 h 0) (rc r); add32 (nth 3 h 0) (rd r);
    add32 (nth 4 h 0) (re r); add32 (nth 5 h 0) (rf r);
    add32 (nth 6 h 0) (rg r); add32 (nth 7 h 0) (rh r) ].

Fixpoint blocks (n : nat) (ws : list Z) (h : list Z) : list Z :=
  match n with
  | O => h
  | S n' => blocks n' (skipn 16 ws) (compress h (firstn 16 ws))
  end.

(** The 32 bytes of the digest. *)
Definition digest (msg : list Z) : list Z :=
  let p := pad msg in
  let ws := words (length p) p in
  flat_map (be_bytes 4) (blocks (length ws / 16) ws H0).

Definition bytes_of (s : string) : list Z :=
  map (fun a => Z.of_nat (nat_of_ascii a)) (String.list_ascii_of_string s).

(** [hashlib.sha256(s.encode()).hexdigest()]. *)
Definition hexdigest (s : string) : string :=
  fold_right PyInt.hex_byte "" (digest (bytes_of s)).

End Sha256.

(** ** Python floats (IEEE 754 binary64) and the format [+.4f] *)
Module PyFloat.

Definition prec : Z := 53.
Definition emax : Z := 1024.

Definition float := spec_float.

(** The float of an integer literal. *)
Definition of_int (n : Z) : float := binary_normalize prec emax n 0 false.

Definition sub (x y : float) : float := SFsub prec emax x y.

(** The magnitude [m * 2^e] times [10^4], rounded to the nearest integer,
    ties to even (float formatting rounds the exact binary value). *)
Definition scaled4 (m : positive) (e : Z) : Z :=
  if 0 <=? e then Z.pos m * 2 ^ e * 10000
  else
    let num := Z.pos m * 10000 in
    let den := 2 ^ (- e) in
    let q := num / den in
    let r := num mod den in
    if (den <? 2 * r) || ((2 * r =? den) && Z.odd q) then q + 1 else q.

(** The last [n] decimal digits of [x], zero-padded. *)
Fixpoint frac_digits (n : nat) (x : Z) (acc : string) : string :=
  match n with
  | O => acc
  | S n' => frac_digits n' (x / 10) (String (PyInt.digit (x mod 10)) acc)
  end.

Definition fixed4 (x : Z) : string :=
  PyInt.dec (x / 10000) +:+ "." +:+ frac_digits 4 (x mod 10000) "".

Definition sign_plus (s : bool) : string := if s then "-" else "+".

(** [format(x, "+.4f")]. *)
Definition format_plus_4f (x : float) : string :=
  match x with
  | S754_nan => "+nan"
  | S754_infinity s => sign_plus s +:+ "inf"
  | S754_zero s => sign_plus s +:+ fixed4 0
  | S754_finite s m e => sign_plus s +:+ fixed4 (scaled4 m e)
  end.

End PyFloat.

(** ** Constants of the program *)

Definition DEFAULT_DB_DIR : string := ".chromadb".
Definition COLLECTION_NAME : string := "files".

Definition BINARY_EXTENSIONS : gset string :=
  list_to_set
    [ ".png"; ".jpg"; ".jpeg"; ".gif"; ".bmp"; ".ico"; ".svg"; ".webp";
      ".mp3"; ".mp4"; ".wav"; ".avi"; ".mov"; ".mkv"; ".flac";
      ".zip"; ".tar"; ".gz"; ".bz2"; ".xz"; ".7z"; ".rar";
      ".pdf"; ".doc"; ".docx"; ".xls"; ".xlsx"; ".ppt"; ".pptx";
      ".exe"; ".dll"; ".so"; ".dylib"; ".o"; ".a";
      ".pyc"; ".pyo"; ".class"; ".wasm";
      ".bin"; ".dat"; ".db"; ".sqlite";
      ".ttf"; ".otf"; ".woff"; ".woff2"; ".eot" ].

Definition SKIP_DIRS : gset string :=
  list_to_set
    [ ".git"; ".hg"; ".svn";
      "__pycache__"; ".mypy_cache"; ".pytest_cache";
      "node_modules"; ".tox"; ".venv"; "venv"; "env";
      DEFAULT_DB_DIR ].

Definition MAX_FILE_SIZE : Z := 1000000.

(** ** The file system *)

(** What the file system answers for one directory entry that is not a
    directory: [f_size] is the result of [os.path.getsize] ([None] when it
    raises [OSError]); [f_text] is the result of opening and reading the
    file as strict UTF-8 ([None] when that raises [UnicodeDecodeError] or
    [OSError]). *)
Record fnode := { f_size : option Z; f_text : option string }.

(** A directory as [os.walk] lists it: the entries that are not directories
    and the sub-directories, each with its name, in listing order. *)
#[warnings="-register-all"]
Inductive dir :=
| Dir (files : list (string * fnode)) (subdirs : list (string * dir)).

Definition dir_files (d : dir) : list (string * fnode) :=
  match d with Dir files _ => files end.
Definition dir_subdirs (d : dir) : list (string * dir) :=
  match d with Dir _ subdirs => subdirs end.

(** ** The vector store and the world *)

Definition metadata := gmap string string.

Record record := { r_document : string; r_metadata : metadata }.

(** What [collection.query] returns for the one query text:
    [results["metadatas"][0]] and [results["distances"][0]]. *)
Record query_result := {
  q_metadatas : list metadata;
  q_distances : list PyFloat.float
}.

(** The calls made to the collection, as the program writes them. *)
Inductive call :=
| CallUpsert (ids : list string) (documents : list string) (metadatas : list metadata)
| CallCount
| CallQuery (query_texts : list string) (n_results : Z).

Record world := {
  w_cwd : string;
  (** the directory found at an absolute path, if there is one *)
  w_fs : string -> option dir;
  (** the contents of the collection persisted under a database path *)
  w_collections : gmap string (gmap string record);
  (** the store's similarity search *)
  w_search : gmap string record -> string -> Z -> query_result;
  (** calls to the store, oldest first *)
  w_calls : list call;
  (** paths opened for reading, oldest first *)
  w_opened : list string;
  w_stdout : list string;
  w_stderr : list string
}.

Definition set_collections (c : gmap string (gmap string record)) (w : world) : world :=
  {| w_cwd := w_cwd w; w_fs := w_fs w; w_collections := c; w_search := w_search w;
     w_calls := w_calls w; w_opened := w_opened w;
     w_stdout := w_stdout w; w_stderr := w_stderr w |}.

Definition add_call (c : call) (w : world) : world :=
  {| w_cwd := w_cwd w; w_fs := w_fs w; w_collections := w_collections w;
     w_search := w_search w; w_calls := w_calls w ++ [c]; w_opened := w_opened w;
     w_stdout := w_stdout w; w_stderr := w_stderr w |}.

Definition add_opened (p : string) (w : world) : world :=
  {| w_cwd := w_cwd w; w_fs := w_fs w; w_collections := w_collections w;
     w_search := w_search w; w_calls := w_calls w; w_opened := w_opened w ++ [p];
     w_stdout := w_stdout w; w_stderr := w_stderr w |}.

Definition add_stdout (line : string) (w : world) : world :=
  {| w_cwd := w_cwd w; w_fs := w_fs w; w_collections := w_collections w;
     w_search := w_search w; w_calls := w_calls w; w_opened := w_opened w;
     w_stdout := w_stdout w ++ [line]; w_stderr := w_stderr w |}.

Definition add_stderr (line : string) (w : world) : world :=
  {| w_cwd := w_cwd w; w_fs := w_fs w; w_collections := w_collections w;
     w_search := w_search w; w_calls := w_calls w; w_opened := w_opened w;
     w_stdout := w_stdout w; w_stderr := w_stderr w ++ [line] |}.

(** ** A monad for state, [sys.exit] and uncaught exceptions *)

Inductive result (A : Type) :=
| Ok (a : A)
| SysExit (code : Z)
| Raised (exn : string).
Arguments Ok {A} a.
Arguments SysExit {A} code.
Arguments Raised {A} exn.

Definition M (A : Type) : Type := world -> result A * world.

Definition ret {A} (a : A) : M A := fun w => (Ok a, w).

Definition bind {A B} (c : M A) (k : A -> M B) : M B :=
  fun w =>
    match c w with
    | (Ok a, w') => k a w'
    | (SysExit code, w') => (SysExit code, w')
    | (Raised e, w') => (Raised e, w')
    end.

Notation "'let*' x ':=' c 'in' k" := (bind c (fun x => k))
  (at level 10, x pattern, c at level 100, k at level 200).

Definition sys_exit {A} (code : Z) : M A := fun w => (SysExit code, w).
Definition raise {A} (exn : string) : M A := fun w => (Raised exn, w).

Definition getcwd : M string := fun w => (Ok (w_cwd w), w).
Definition print (line : string) : M unit := fun w => (Ok tt, add_stdout line w).
Definition eprint (line : string) : M unit := fun w => (Ok tt, add_stderr line w).

Definition isdir (path : string) : M bool :=
  fun w => (Ok (match w_fs w path with Some _ => true | None => false end), w).

Definition when (b : bool) (c : M unit) : M unit := if b then c else ret tt.

Fixpoint foldM {A B} (f : B -> A -> M B) (l : list A) (b : B) : M B :=
  match l with
  | [] => ret b
  | x :: l' => let* b' := f b x in foldM f l' b'
  end.

(** *** The collection's operations *)

Definition contents_at (w : world) (db_path : string) : gmap string record :=
  default ∅ (w_collections w !! db_path).

(** Insert-or-update by id, in the order of the batch. *)
Fixpoint upsert_records (ids documents : list string) (metadatas : list metadata)
                        (c : gmap string record) : gmap string record :=
  match ids, documents, metadatas with
  | i :: ids', d :: documents', m :: metadatas' =>
      upsert_records ids' documents' metadatas'
                     (<[i := {| r_document := d; r_metadata := m |}]> c)
  | _, _, _ => c
  end.

Definition collection_upsert (db_path : string) (ids documents : list string)
                             (metadatas : list metadata) : M unit :=
  fun w =>
    (Ok tt,
     add_call (CallUpsert ids documents metadatas)
       (set_collections
          (<[db_path := upsert_records ids documents metadatas (contents_at w db_path)]>
             (w_collections w)) w)).

Definition collection_count (db_path : string) : M Z :=
  fun w => (Ok (Z.of_nat (size (contents_at w db_path))), add_call CallCount w).

Definition collection_query (db_path : string) (query_text : string) (n_results : Z)
  : M query_result :=
  fun w => (Ok (w_search w (contents_at w db_path) query_text n_results),
            add_call (CallQuery [query_text] n_results) w).

(** ** The program *)

Definition get_db_path (directory : string) : string :=
  OsPath.join directory DEFAULT_DB_DIR.

(** [get_client]: the persistent client is identified by its path. *)
Definition get_client (directory : string) : string := get_db_path directory.

(** [get_collection]: get or create, by the fixed name and with the cosine
    space (both are the store's business); a collection that does not exist
    yet is created empty. *)
Definition get_collection (client : string) : M string :=
  fun w => (Ok client,
            set_collections (<[client := contents_at w client]> (w_collections w)) w).

Definition _file_id (filepath : string) : string := Sha256.hexdigest filepath.

(** [_should_skip_file(filepath)]; [node] is what the file system holds at
    [filepath]. *)
Definition _should_skip_file (filepath : string) (node : fnode) : bool :=
  let '(_, ext) := OsPath.splitext filepath in
  if bool_decide (PyStr.lower ext ∈ BINARY_EXTENSIONS) then true
  else match f_size node with
       | None => true
       | Some size => (size =? 0) || (MAX_FILE_SIZE <? size)
       end.

(** [_read_text(filepath)]: the file is opened and read. *)
Definition _read_text (filepath : string) (node : fnode) : M (option string) :=
  fun w => (Ok (f_text node), add_opened filepath w).

(** [os.walk(top)] with the caller's pruning [dirs[:] = [d for d in dirs if
    keep d]] applied before the generator goes on: one triple (root, dirs,
    files) per directory visited, top-down, in listing order. *)
Fixpoint os_walk (keep : string -> bool) (top : string) (d : dir)
  : list (string * list string * list (string * fnode)) :=
  match d with
  | Dir files subdirs =>
      (top, List.filter keep (map fst subdirs), files)
      :: (fix descend (l : list (string * dir)) :=
            match l with
            | [] => []
            | (dirname, sub) :: l' =>
                if keep dirname
                then os_walk keep (OsPath.join top dirname) sub ++ descend l'
                else descend l'
            end) subdirs
  end.

Definition keep_dir (d : string) : bool := bool_decide (d ∉ SKIP_DIRS).

Definition walk_of (w : world) (directory : string)
  : list (string * list string * list (string * fnode)) :=
  match w_fs w directory with
  | Some d => os_walk keep_dir directory d
  | None => []
  end.

Definition os_walk_pruned (directory : string)
  : M (list (string * list string * list (string * fnode))) :=
  fun w => (Ok (walk_of w directory), w).

(** The three parallel lists [ids], [documents], [metadatas]. *)
Record buffers := {
  ids : list string;
  documents : list string;
  metadatas : list metadata
}.

Definition no_buffers : buffers := {| ids := []; documents := []; metadatas := [] |}.

(** The body of [for fname in files]. *)
Definition index_file (collection : string) (verbose : bool) (cwd directory root : string)
                      (b : buffers) (entry : string * fnode) : M buffers :=
  let '(fname, node) := entry in
  let filepath := OsPath.join root fname in
  if _should_skip_file filepath node then
    let* _ := when verbose (print ("  skip  " +:+ filepath)) in
    ret b
  else
    let* content := _read_text filepath node in
    match content with
    | None =>
        let* _ := when verbose (print ("  skip  " +:+ filepath +:+ " (not utf-8)")) in
        ret b
    | Some content =>
        let relpath := OsPath.relpath cwd filepath directory in
        let doc_id := _file_id relpath in
        let b := {| ids := ids b ++ [doc_id];
                    documents := documents b ++ [content];
                    metadatas := metadatas b ++ [{[ "path" := relpath ]}] |} in
        let* _ := when verbose (print ("  index " +:+ relpath)) in
        if 50 <=? Z.of_nat (length (ids b)) then
          let* _ := collection_upsert collection (ids b) (documents b) (metadatas b) in
          ret no_buffers
        else ret b
    end.

(** The body of [for root, dirs, files in os.walk(directory)]. *)
Definition index_dir (collection : string) (verbose : bool) (cwd directory : string)
                     (b : buffers) (triple : string * list string * list (string * fnode))
  : M buffers :=
  let '(root, _, files) := triple in
  foldM (index_file collection verbose cwd directory root) files b.

(** [walk_and_index(directory, verbose)]. *)
Definition walk_and_index (directory : string) (verbose : bool) : M unit :=
  let* cwd := getcwd in
  let directory := OsPath.abspath cwd directory in
  let client := get_client directory in
  let* collection := get_collection client in
  let* triples := os_walk_pruned directory in
  let* b := foldM (index_dir collection verbose cwd directory) triples no_buffers in
  let* _ := when (negb (Nat.eqb (length (ids b)) 0))
                 (collection_upsert collection (ids b) (documents b) (metadatas b)) in
  let* total := collection_count collection in
  print ("Collection '" +:+ COLLECTION_NAME +:+ "' now contains "
         +:+ PyInt.str total +:+ " documents.").

(** [meta['path']]. *)
Definition meta_path (meta : metadata) : M string :=
  match meta !! "path" with
  | Some p => ret p
  | None => raise "KeyError: 'path'"
  end.

Definition render (score : PyFloat.float) (path : string) : string :=
  PyFloat.format_plus_4f score +:+ "  " +:+ path.

(** The body of [for meta, dist in zip(paths, distances)]. *)
Definition print_result (_ : unit) (r : metadata * PyFloat.float) : M unit :=
  let '(meta, dist) := r in
  let score := PyFloat.sub (PyFloat.of_int 1) dist in
  let* path := meta_path meta in
  print (render score path).

(** [query_collection(directory, query_text, n_results)]. *)
Definition query_collection (directory query_text : string) (n_results : Z) : M unit :=
  let* cwd := getcwd in
  let directory := OsPath.abspath cwd directory in
  let client := get_client directory in
  let* collection := get_collection client in
  let* n := collection_count collection in
  if n =? 0 then
    let* _ := eprint "Collection is empty. Run --index first." in
    sys_exit 1
  else
    let* results := collection_query collection query_text n_results in
    let paths := q_metadatas results in
    let distances := q_distances results in
    foldM print_result (combine paths distances) tt.

(** The namespace [parser.parse_args()] returns.  The parser requires
    exactly one of [--index] and [--query TEXT]; [--query] with an empty
    TEXT satisfies it and gives [a_query = Some ""]. *)
Record namespace := {
  a_directory : string;
  a_index : bool;
  a_query : option string;
  a_num_results : Z;
  a_verbose : bool
}.

(** [parser.error(message)]: the message goes to standard error (after the
    usage line and the program name, which are the parser's) and the
    process exits with status 2. *)
Definition parser_error {A} (message : string) : M A :=
  let* _ := eprint ("error: " +:+ message) in
  sys_exit 2.

(** Truth value of [args.query]: [None] and the empty string are false. *)
Definition truthy (q : option string) : bool :=
  match q with
  | Some (String _ _) => true
  | _ => false
  end.

(** [main()], after [args = parser.parse_args()]. *)
Definition main (args : namespace) : M unit :=
  let* cwd := getcwd in
  let directory := OsPath.abspath cwd (a_directory args) in
  let* d := isdir directory in
  let* _ := if negb d then parser_error ("Not a directory: " +:+ directory) else ret tt in
  if a_index args then
    let* _ := print ("Indexing " +:+ directory +:+ " ...") in
    walk_and_index directory (a_verbose args)
  else if truthy (a_query args) then
    query_collection directory (default "" (a_query args)) (a_num_results args)
  else ret tt.

(** ** Notions used to state the properties *)

(** A file the loop body runs on: the [root] of its directory, its name and
    what the file system holds for it. *)
Definition visit : Type := string * string * fnode.

Definition visit_path (v : visit) : string := OsPath.join v.1.1 v.1.2.
Definition visit_node (v : visit) : fnode := v.2.

(** The files of the triples [os.walk] yields, in the order the two nested
    loops reach them. *)
Definition visits (triples : list (string * list string * list (string * fnode)))
  : list visit :=
  flat_map (fun t => map (fun e => (t.1.1, e.1, e.2)) t.2) triples.

(** One entry of an upsert: id, document, metadata. *)
Definition stored : Type := string * string * metadata.

Definition stored_id (r : stored) : string := r.1.1.
Definition stored_document (r : stored) : string := r.1.2.
Definition stored_metadata (r : stored) : metadata := r.2.

Definition shown_relpath (cwd directory : string) (v : visit) : string :=
  OsPath.relpath cwd (visit_path v) directory.

Definition make_record (cwd directory : string) (v : visit) (content : string) : stored :=
  (_file_id (shown_relpath cwd directory v), content,
   {[ "path" := shown_relpath cwd directory v ]}).

(** The record the loop body appends for a file, if it appends one. *)
Definition record_of (cwd directory : string) (v : visit) : option stored :=
  if _should_skip_file (visit_path v) (visit_node v) then None
  else make_record cwd directory v <$> f_text (visit_node v).

Definition emitted (cwd directory : string) (vs : list visit) : list stored :=
  omap (record_of cwd directory) vs.

(** A file qualifies when it passes the filters and decodes. *)
Definition qualifies (v : visit) : bool :=
  negb (_should_skip_file (visit_path v) (visit_node v))
  && bool_decide (is_Some (f_text (visit_node v))).

(** The paths [_read_text] opens. *)
Definition opened_paths (vs : list visit) : list string :=
  map visit_path
      (List.filter (fun v => negb (_should_skip_file (visit_path v) (visit_node v))) vs).

(** The upsert call for a batch of records. *)
Definition batch_call (b : list stored) : call :=
  CallUpsert (map stored_id b) (map stored_document b) (map stored_metadata b).

(** The records a call hands to the store. *)
Definition call_records (c : call) : list stored :=
  match c with
  | CallUpsert i d m => combine (combine i d) m
  | _ => []
  end.

Definition upserted (cs : list call) : list stored := flat_map call_records cs.

(** What happened between two worlds. *)
Definition calls_since (w w' : world) : list call := drop (length (w_calls w)) (w_calls w').
Definition opened_since (w w' : world) : list string :=
  drop (length (w_opened w)) (w_opened w').
Definition stdout_since (w w' : world) : list string :=
  drop (length (w_stdout w)) (w_stdout w').
Definition stderr_since (w w' : world) : list string :=
  drop (length (w_stderr w)) (w_stderr w').

(** The visits of an indexing run started in world [w]. *)
Definition run_visits (w : world) (directory : string) : list visit :=
  visits (walk_of w (OsPath.abspath (w_cwd w) directory)).

(** *** Batches *)

(** A list cut into consecutive pieces of [n] elements, the last one
    possibly shorter. *)
Fixpoint chunks_fuel {A} (fuel n : nat) (l : list A) : list (list A) :=
  match fuel, l with
  | S fuel', _ :: _ => take n l :: chunks_fuel fuel' n (drop n l)
  | _, _ => []
  end.

Definition chunks {A} (n : nat) (l : list A) : list (list A) :=
  chunks_fuel (length l) n l.

(** The buffer as the loop keeps it, and the flushes of the loop: an
    auxiliary view of [index_file] on records only. *)
Definition to_buffers (recs : list stored) : buffers :=
  {| ids := map stored_id recs;
     documents := map stored_document recs;
     metadatas := map stored_metadata recs |}.

Fixpoint batching (recs items : list stored) : list (list stored) * list stored :=
  match items with
  | [] => ([], recs)
  | r :: items' =>
      if 50 <=? Z.of_nat (length (recs ++ [r]))
      then ((recs ++ [r]) :: (batching [] items').1, (batching [] items').2)
      else batching (recs ++ [r]) items'
  end.

Definition apply_upserts (collection : string) (bs : list (list stored))
                         (cs : gmap string (gmap string record))
  : gmap string (gmap string record) :=
  fold_left
    (fun cs b =>
       <[collection := upsert_records (map stored_id b) (map stored_document b)
                                      (map stored_metadata b)
                                      (default ∅ (cs !! collection))]> cs)
    bs cs.

(** *** Decisions and the verbose log *)

Inductive reason :=
| BinaryExtension
| SizeUnavailable
| ZeroOrTooLarge
| NotUtf8
| WasIndexed.

(** Which test of the loop body settled the file. *)
Definition decision_of (v : visit) : reason :=
  if bool_decide (PyStr.lower (OsPath.splitext (visit_path v)).2 ∈ BINARY_EXTENSIONS)
  then BinaryExtension
  else match f_size (visit_node v) with
       | None => SizeUnavailable
       | Some size =>
           if (size =? 0) || (MAX_FILE_SIZE <? size) then ZeroOrTooLarge
           else match f_text (visit_node v) with
                | None => NotUtf8
                | Some _ => WasIndexed
                end
       end.

(** The path a log line shows: the relative path of an indexed file, the
    joined path of a skipped one. *)
Definition shown_path (cwd directory : string) (v : visit) : string :=
  match decision_of v with
  | WasIndexed => shown_relpath cwd directory v
  | _ => visit_path v
  end.

(** The words the program puts before and after the path. *)
Definition code_prefix (r : reason) : string :=
  match r with
  | WasIndexed => "  index "
  | _ => "  skip  "
  end.

Definition code_suffix (r : reason) : string :=
  match r with
  | NotUtf8 => " (not utf-8)"
  | _ => ""
  end.

Definition log_line (cwd directory : string) (v : visit) : string :=
  code_prefix (decision_of v) +:+ shown_path cwd directory v +:+ code_suffix (decision_of v).

Definition log_lines (verbose : bool) (cwd directory : string) (vs : list visit)
  : list string :=
  if verbose then map (log_line cwd directory) vs else [].

Definition summary_line (total : Z) : string :=
  "Collection '" +:+ COLLECTION_NAME +:+ "' now contains "
  +:+ PyInt.str total +:+ " documents.".

(** The log tells the reason of every decision: each reason has its own
    wording around the path, and every line of the verbose log is the
    wording of the decision taken for its file. *)
Definition reasons_logged (w : world) (directory : string) : Prop :=
  ∃ before after : reason → string,
    (∀ r1 r2, before r1 = before r2 → after r1 = after r2 → r1 = r2) ∧
    take (length (run_visits w directory))
         (stdout_since w (walk_and_index directory true w).2)
    = map (fun v => before (decision_of v)
                    +:+ shown_path (w_cwd w) (OsPath.abspath (w_cwd w) directory) v
                    +:+ after (decision_of v))
          (run_visits w directory).

(** *** The tree without pruning *)

(** Every file of the tree below [top], with the names of the directories
    that lead to it from [top]. *)
Fixpoint all_files (chain : list string) (top : string) (d : dir)
  : list (list string * visit) :=
  match d with
  | Dir files subdirs =>
      map (fun e => (chain, (top, e.1, e.2))) files
      ++ (fix descend (l : list (string * dir)) :=
            match l with
            | [] => []
            | (dirname, sub) :: l' =>
                all_files (chain ++ [dirname]) (OsPath.join top dirname) sub ++ descend l'
            end) subdirs
  end.

Definition tree_files (w : world) (directory : string) : list (list string * visit) :=
  match w_fs w directory with
  | Some d => all_files [] directory d
  | None => []
  end.

(** The tree with every sub-directory that [keep] rejects removed, at any
    depth, together with all it holds. *)
Fixpoint prune (keep : string → bool) (d : dir) : dir :=
  match d with
  | Dir files subdirs =>
      Dir files
          ((fix descend (l : list (string * dir)) :=
              match l with
              | [] => []
              | (dirname, sub) :: l' =>
                  if keep dirname then (dirname, prune keep sub) :: descend l'
                  else descend l'
              end) subdirs)
  end.

(** The world in which the excluded directories do not exist. *)
Definition without_skipped (w : world) : world :=
  {| w_cwd := w_cwd w;
     w_fs := fun p => prune keep_dir <$> w_fs w p;
     w_collections := w_collections w; w_search := w_search w;
     w_calls := w_calls w; w_opened := w_opened w;
     w_stdout := w_stdout w; w_stderr := w_stderr w |}.

(** *** Case variants of an extension *)

Definition upper_ascii (a : ascii) : ascii :=
  let n := Z.of_nat (nat_of_ascii a) in
  if (97 <=? n) && (n <=? 122) then ascii_of_nat (Z.to_nat (n - 32)) else a.

(** [s] spells [e] with some of its letters in upper case. *)
Fixpoint case_variant (s e : string) : Prop :=
  match s, e with
  | EmptyString, EmptyString => True
  | String a s', String b e' => (a = b ∨ a = upper_ascii b) ∧ case_variant s' e'
  | _, _ => False
  end.

(** An ASCII character that is not an upper-case letter. *)
Definition plain (b : ascii) : bool :=
  let n := Z.of_nat (nat_of_ascii b) in
  (n <? 128) && negb ((65 <=? n) && (n <=? 90)).

Definition plain_string (e : string) : bool :=
  forallb plain (String.list_ascii_of_string e).

(** *** Shape of a formatted score *)

Definition is_digit (a : ascii) : Prop :=
  (48 <= nat_of_ascii a <= 57)%nat.

Definition all_digits (s : string) : Prop :=
  Forall is_digit (String.list_ascii_of_string s).

(** A sign, at least one digit, a point and exactly four digits. *)
Definition signed_4_decimals (s : string) : Prop :=
  ∃ sign whole frac,
    s = sign +:+ whole +:+ "." +:+ frac ∧
    (sign = "+" ∨ sign = "-") ∧
    whole ≠ "" ∧ all_digits whole ∧
    String.length frac = 4%nat ∧ all_digits frac.

Definition is_number (x : PyFloat.float) : bool :=
  match x with
  | S754_zero _ | S754_finite _ _ _ => true
  | _ => false
  end.

(** The distance 0.2 as a binary64 float. *)
Definition float_0_2 : PyFloat.float := S754_finite false 0x1999999999999a (-55).

(** *** The loop over the visited files *)

(** The body of the two nested loops, on one visited file. *)
Definition index_visit (collection : string) (verbose : bool) (cwd directory : string)
                       (b : buffers) (v : visit) : M buffers :=
  index_file collection verbose cwd directory v.1.1 b (v.1.2, v.2).

(** The world after the store received the batches [bs], the files
    [opened] were read and [lines] were printed. *)
Definition world_after (collection : string) (w : world) (bs : list (list stored))
                       (opened lines : list string) : world :=
  {| w_cwd := w_cwd w; w_fs := w_fs w;
     w_collections := apply_upserts collection bs (w_collections w);
     w_search := w_search w;
     w_calls := w_calls w ++ map batch_call bs;
     w_opened := w_opened w ++ opened;
     w_stdout := w_stdout w ++ lines;
     w_stderr := w_stderr w |}.

(** The world an indexing run started in [w] ends in. *)
Definition index_outcome (w : world) (directory : string) (verbose : bool) : world :=
  let cwd := w_cwd w in
  let dir := OsPath.abspath cwd directory in
  let coll := get_client dir in
  let vs := run_visits w directory in
  let w1 := set_collections (<[coll := contents_at w coll]> (w_collections w)) w in
  let w2 := world_after coll w1 (chunks 50 (emitted cwd dir vs))
                        (opened_paths vs) (log_lines verbose cwd dir vs) in
  add_stdout (summary_line (Z.of_nat (size (contents_at w2 coll)))) (add_call CallCount w2).

(** *** Sample worlds *)

Definition text_file (size : Z) (content : string) : fnode :=
  {| f_size := Some size; f_text := Some content |}.

Definition no_results : query_result := {| q_metadatas := []; q_distances := [] |}.

(** A world whose only directory is [/r], holding [tree], with an empty
    store. *)
Definition world_of (tree : dir) : world :=
  {| w_cwd := "/home/u";
     w_fs := fun p => if String.eqb p "/r" then Some tree else None;
     w_collections := ∅;
     w_search := fun _ _ _ => no_results;
     w_calls := []; w_opened := []; w_stdout := []; w_stderr := [] |}.

Definition sample_tree : dir :=
  Dir [ ("a.txt", text_file 5 "hello");
        ("b.PNG", text_file 5 "hello");
        ("c.png", text_file 10 "0123456789");
        ("empty.txt", text_file 0 "");
        ("big.md", text_file 1000001 "big");
        ("ok.md", text_file 1000000 "ok");
        ("raw.txt", {| f_size := Some 3; f_text := None |}) ]
      [ ("node_modules", Dir [ ("x.js", text_file 3 "js;") ] []);
        ("src", Dir [ ("m.py", text_file 9 "import os") ]
                    [ (".git", Dir [ ("HEAD", text_file 4 "ref:") ] []) ]) ].

(** The same place with other contents in [a.txt]. *)
Definition other_tree : dir := Dir [ ("a.txt", text_file 3 "bye") ] [].

(** A directory of [n] small text files [f0.txt], [f1.txt], ... *)
Definition many_files (n : nat) : dir :=
  Dir (map (fun i => ("f" +:+ PyInt.str (Z.of_nat i) +:+ ".txt", text_file 1 "x"))
           (seq 0 n)) [].

(** The world after [lines] were printed. *)
Definition add_stdouts (lines : list string) (w : world) : world :=
  {| w_cwd := w_cwd w; w_fs := w_fs w; w_collections := w_collections w;
     w_search := w_search w; w_calls := w_calls w; w_opened := w_opened w;
     w_stdout := w_stdout w ++ lines; w_stderr := w_stderr w |}.

(** What [collection.count()] answers for the store of [directory]. *)
Definition store_count (w : world) (directory : string) : Z :=
  Z.of_nat (size (contents_at w (get_client (OsPath.abspath (w_cwd w) directory)))).

(** The rows of a query: [zip(paths, distances)]. *)
Definition query_rows (w : world) (directory query_text : string) (n_results : Z)
  : list (metadata * PyFloat.float) :=
  let results :=
    w_search w (contents_at w (get_client (OsPath.abspath (w_cwd w) directory)))
             query_text n_results in
  combine (q_metadatas results) (q_distances results).

(** The line printed for a row. *)
Definition row_line (row : metadata * PyFloat.float) : string :=
  PyFloat.format_plus_4f (PyFloat.sub (PyFloat.of_int 1) row.2)
  +:+ "  " +:+ default "" (row.1 !! "path").

(** A directory with a picture and an empty text file. *)
Definition two_skipped : dir :=
  Dir [ ("a.png", text_file 10 "0123456789"); ("b.txt", text_file 0 "") ] [].

(** A world whose store of [/r] holds one record, under the id of
    [a.txt], and answers every query with that record at distance 0.2. *)
Definition answering_world : world :=
  {| w_cwd := "/home/u";
     w_fs := fun p => if String.eqb p "/r" then Some sample_tree else None;
     w_collections :=
       {[ "/r/.chromadb" :=
            {[ "18b7cb099a9ea3f50ba899b5ba81e0d377a5f3b16f8f6eeb8b3e58cd4692b993" :=
                 {| r_document := "hello"; r_metadata := {[ "path" := "a.txt" ]} |} ]} ]};
     w_search := fun _ _ _ =>
       {| q_metadatas := [ {[ "path" := "a.txt" ]} ]; q_distances := [ float_0_2 ] |};
     w_calls := []; w_opened := []; w_stdout := []; w_stderr := [] |}.

(** *** The store after a run *)

(** The record the store keeps for an upserted entry. *)
Definition as_record (r : stored) : record :=
  {| r_document := stored_document r; r_metadata := stored_metadata r |}.

(** Insert-or-update of a sequence of entries, in order. *)
Definition insert_all (recs : list stored) (c : gmap string record) : gmap string record :=
  fold_left (fun c r => <[stored_id r := as_record r]> c) recs c.

(** The database path an indexing run or a query on [directory] uses. *)
Definition run_collection (w : world) (directory : string) : string :=
  get_client (OsPath.abspath (w_cwd w) directory).

(** The records of the qualifying files of a run, in visiting order. *)
Definition run_records (w : world) (directory : string) : list stored :=
  emitted (w_cwd w) (OsPath.abspath (w_cwd w) directory) (run_visits w directory).

(** A world whose store answers with two rows, the second of which has
    no path. *)
Definition pathless_world : world :=
  {| w_cwd := "/home/u";
     w_fs := fun p => if String.eqb p "/r" then Some sample_tree else None;
     w_collections :=
       {[ "/r/.chromadb" :=
            {[ "some-id" := {| r_document := "text"; r_metadata := ∅ |} ]} ]};
     w_search := fun _ _ _ =>
       {| q_metadatas := [ {[ "path" := "a.txt" ]}; ∅; {[ "path" := "c.txt" ]} ];
          q_distances := [ float_0_2; float_0_2 ] |};
     w_calls := []; w_opened := []; w_stdout := []; w_stderr := [] |}.

(** A lower-case hexadecimal digit. *)
Definition is_lower_hex (a : ascii) : Prop :=
  (48 ≤ nat_of_ascii a ≤ 57 ∨ 97 ≤ nat_of_ascii a ≤ 102)%nat.

(** *** Well-formed names and normal absolute paths *)

Fixpoint has_slash (s : string) : bool :=
  match s with
  | EmptyString => false
  | String a s' => Ascii.eqb a "/" || has_slash s'
  end.

(** A name a directory entry can have: not empty, no separator, neither
    [.] nor [..]. *)
Definition valid_name (s : string) : bool :=
  negb (has_slash s) && negb (String.eqb s "")
  && negb (String.eqb s ".") && negb (String.eqb s "..").

(** Every entry of the tree has a valid name. *)
Fixpoint valid_tree (d : dir) : bool :=
  match d with
  | Dir files subdirs =>
      forallb (fun e => valid_name e.1) files
      && (fix descend (l : list (string * dir)) :=
            match l with
            | [] => true
            | (dirname, sub) :: l' => valid_name dirname && valid_tree sub && descend l'
            end) subdirs
  end.

(** The absolute path with the components [cs]. *)
Definition abs_of (cs : list string) : string := "/" +:+ PyStr.join "/" cs.

(** * Properties *)

(** Split a conjunction into its parts and evaluate each. *)
Ltac evaluate_each :=
  repeat match goal with |- _ ∧ _ => split end; vm_compute; reflexivity.

(** ** The library functions on known values *)

Example splitext_values :
  OsPath.splitext "/r/photo.PNG" = ("/r/photo", ".PNG")
  ∧ OsPath.splitext "/r/.png" = ("/r/.png", "")
  ∧ OsPath.splitext "x.tar.gz" = ("x.tar", ".gz")
  ∧ OsPath.splitext "/a.b/c" = ("/a.b/c", "")
  ∧ OsPath.splitext "/r/...a.PNG" = ("/r/...a", ".PNG").
Proof. evaluate_each. Qed.

Example lower_values :
  PyStr.lower "AbC.PNG[]@Zz" = "abc.png[]@zz"
  ∧ PyStr.lower (String "."%char (String "M"%char
                   (String "226"%char (String "132"%char (String "170"%char "V")))))
    = ".mkv".
Proof. split; reflexivity. Qed.

Example path_values :
  OsPath.join "/r" "a" = "/r/a"
  ∧ OsPath.join "/" "a" = "/a"
  ∧ OsPath.join "/r" "/x" = "/x"
  ∧ OsPath.normpath "/a//b/./c/../d/" = "/a/b/d"
  ∧ OsPath.normpath "//a" = "//a"
  ∧ OsPath.normpath "a/../.." = ".."
  ∧ OsPath.abspath "/cwd" "x/../y" = "/cwd/y"
  ∧ OsPath.relpath "/cwd" "/r/a/b.txt" "/r" = "a/b.txt"
  ∧ OsPath.relpath "/cwd" "/a" "/" = "a"
  ∧ OsPath.relpath "/cwd" "/r" "/r" = ".".
Proof. evaluate_each. Qed.

Example sha256_values :
  Sha256.hexdigest "abc"
  = "ba7816bf8f01cfea414140de5dae2223b00361a396177a9cb410ff61f20015ad"
  ∧ Sha256.hexdigest ""
    = "e3b0c44298fc1c149afbf4c8996fb92427ae41e4649b934ca495991b7852b855"
  ∧ _file_id "src/main.py"
    = "2e5ad92c43aa96cc3a9cef6c6aec998b216f1379c43b1f651013d25e55989312"
  ∧ _file_id "a.txt"
    = "18b7cb099a9ea3f50ba899b5ba81e0d377a5f3b16f8f6eeb8b3e58cd4692b993".
Proof. evaluate_each. Qed.

Example sha256_constants :
  firstn 4 Sha256.K = [0x428a2f98; 0x71374491; 0xb5c0fbcf; 0xe9b5dba5]
  ∧ nth 63 Sha256.K 0 = 0xc67178f2
  ∧ length Sha256.K = 64%nat
  ∧ firstn 2 Sha256.H0 = [0x6a09e667; 0xbb67ae85]
  ∧ nth 7 Sha256.H0 0 = 0x5be0cd19.
Proof. evaluate_each. Qed.

Example format_values :
  PyFloat.format_plus_4f (PyFloat.of_int 1) = "+1.0000"
  ∧ PyFloat.format_plus_4f (S754_finite true 1 (-5)) = "-0.0312"
  ∧ PyFloat.format_plus_4f (S754_finite false 5 (-1)) = "+2.5000"
  ∧ PyFloat.format_plus_4f (S754_finite false 8193 (-16)) = "+0.1250"
  ∧ PyFloat.format_plus_4f (S754_finite false 24577 (-16)) = "+0.3750"
  ∧ PyFloat.format_plus_4f (S754_zero true) = "-0.0000"
  ∧ PyFloat.format_plus_4f (S754_infinity true) = "-inf"
  ∧ PyFloat.format_plus_4f S754_nan = "+nan".
Proof. evaluate_each. Qed.

Example should_skip_values :
  _should_skip_file "/r/a.txt" (text_file 5 "hello") = false
  ∧ _should_skip_file "/r/b.PNG" (text_file 5 "hello") = true
  ∧ _should_skip_file "/r/.png" (text_file 7 "picture") = false
  ∧ _should_skip_file "/r/a.txt" (text_file 0 "") = true
  ∧ _should_skip_file "/r/a.txt" (text_file 1000000 "") = false
  ∧ _should_skip_file "/r/a.txt" (text_file 1000001 "") = true
  ∧ _should_skip_file "/r/a.txt" {| f_size := None; f_text := None |} = true.
Proof. evaluate_each. Qed.

Example sample_run :
  run_visits (world_of sample_tree) "/r"
  = [ ("/r", "a.txt", text_file 5 "hello"); ("/r", "b.PNG", text_file 5 "hello");
      ("/r", "c.png", text_file 10 "0123456789"); ("/r", "empty.txt", text_file 0 "");
      ("/r", "big.md", text_file 1000001 "big"); ("/r", "ok.md", text_file 1000000 "ok");
      ("/r", "raw.txt", {| f_size := Some 3; f_text := None |});
      ("/r/src", "m.py", text_file 9 "import os") ]
  ∧ opened_since (world_of sample_tree) (walk_and_index "/r" false (world_of sample_tree)).2
    = [ "/r/a.txt"; "/r/ok.md"; "/r/raw.txt"; "/r/src/m.py" ]
  ∧ map stored_document
        (upserted (calls_since (world_of sample_tree)
                               (walk_and_index "/r" false (world_of sample_tree)).2))
    = [ "hello"; "ok"; "import os" ]
  ∧ stdout_since (world_of sample_tree) (walk_and_index "/r" false (world_of sample_tree)).2
    = [ "Collection 'files' now contains 3 documents." ].
Proof. evaluate_each. Qed.

(** ** Strings *)

Lemma append_cons (a : ascii) (s t : string) : String a s +:+ t = String a (s +:+ t).
Proof. reflexivity. Qed.

Lemma append_empty_l (t : string) : "" +:+ t = t.
Proof. reflexivity. Qed.

Lemma append_empty_r (s : string) : s +:+ "" = s.
Proof. induction s as [|a s IH]; [reflexivity | now rewrite append_cons, IH]. Qed.

Lemma append_assoc (a b c : string) : (a +:+ b) +:+ c = a +:+ (b +:+ c).
Proof. induction a as [|x a IH]; [reflexivity | now rewrite !append_cons, IH]. Qed.

(** From [line = p +:+ rest], with [line] and [rest] given: peel the
    characters of [p] one at a time until what is left of [line] is
    [rest]. *)
Ltac peel_prefix H :=
  match type of H with
  | _ = ?p +:+ _ =>
      let c := fresh "c" in
      let Hc := fresh "Hc" in
      destruct p as [|c p];
      [ rewrite append_empty_l in H; vm_compute in H;
        first [ discriminate H | repeat (injection H as H); subst; split; reflexivity ]
      | rewrite append_cons in H;
        first [ discriminate H | injection H as Hc H; subst c; peel_prefix H ] ]
  end.

(** ** The monad *)

Lemma bind_assoc {A B C} (c : M A) (k : A → M B) (k' : B → M C) (w : world) :
  bind (bind c k) k' w = bind c (fun a => bind (k a) k') w.
Proof. unfold bind. destruct (c w) as [[a| |] w']; reflexivity. Qed.

Lemma bind_ext {A B} (c : M A) (k1 k2 : A → M B) (w : world) :
  (∀ a w', k1 a w' = k2 a w') → bind c k1 w = bind c k2 w.
Proof. intros H. unfold bind. destruct (c w) as [[a| |] w']; auto. Qed.

Lemma bind_ok {A B} (c : M A) (k : A → M B) (w w' : world) (a : A) :
  c w = (Ok a, w') → bind c k w = k a w'.
Proof. intros H. unfold bind. now rewrite H. Qed.

Lemma foldM_app {A B} (f : B → A → M B) (l1 l2 : list A) (b : B) (w : world) :
  foldM f (l1 ++ l2) b w = bind (foldM f l1 b) (foldM f l2) w.
Proof.
  revert b w. induction l1 as [|x l1 IH]; intros b w; cbn [app foldM].
  - reflexivity.
  - rewrite bind_assoc. apply bind_ext. intros b' w'. apply IH.
Qed.

(** The two nested loops run the body on the visits, in order. *)
Lemma nested_loops_visits collection verbose cwd directory triples b w :
  foldM (index_dir collection verbose cwd directory) triples b w
  = foldM (index_visit collection verbose cwd directory) (visits triples) b w.
Proof.
  revert b w. induction triples as [|[[root dirs] files] triples IH]; intros b w.
  - reflexivity.
  - cbn [visits flat_map]. rewrite foldM_app. cbn [foldM fst snd].
    assert (E : ∀ b w, index_dir collection verbose cwd directory b (root, dirs, files) w
                = foldM (index_visit collection verbose cwd directory)
                        (map (fun e => (root, e.1, e.2)) files) b w).
    { unfold index_dir. clear. 
      induction files as [|[fname node] files IHf]; intros b w; [reflexivity|].
      cbn [map foldM]. apply bind_ext. intros b' w'. apply IHf. }
    unfold bind at 1 2. rewrite E.
    destruct (foldM (index_visit collection verbose cwd directory)
                    (map (fun e => (root, e.1, e.2)) files) b w) as [[b'| |] w'];
      try reflexivity.
    apply IH.
Qed.

(** ** Batching *)

Lemma batching_app recs i1 i2 :
  batching recs (i1 ++ i2)
  = ((batching recs i1).1 ++ (batching (batching recs i1).2 i2).1,
     (batching (batching recs i1).2 i2).2).
Proof.
  revert recs. induction i1 as [|r i1 IH]; intros recs; simpl.
  - now destruct (batching recs i2).
  - destruct (50 <=? Z.of_nat (length (recs ++ [r]))); simpl.
    + rewrite IH. reflexivity.
    + apply IH.
Qed.

Lemma apply_upserts_app collection bs1 bs2 cs :
  apply_upserts collection (bs1 ++ bs2) cs
  = apply_upserts collection bs2 (apply_upserts collection bs1 cs).
Proof. unfold apply_upserts. apply fold_left_app. Qed.

Lemma world_after_compose collection w bs1 o1 l1 bs2 o2 l2 :
  world_after collection (world_after collection w bs1 o1 l1) bs2 o2 l2
  = world_after collection w (bs1 ++ bs2) (o1 ++ o2) (l1 ++ l2).
Proof.
  unfold world_after; simpl.
  rewrite apply_upserts_app, map_app, !app_assoc. reflexivity.
Qed.

Lemma world_after_nothing collection w : world_after collection w [] [] [] = w.
Proof. destruct w; unfold world_after; simpl. rewrite !app_nil_r. reflexivity. Qed.

Lemma skip_decision v :
  _should_skip_file (visit_path v) (visit_node v) = true →
  decision_of v = BinaryExtension ∨ decision_of v = SizeUnavailable
  ∨ decision_of v = ZeroOrTooLarge.
Proof.
  unfold _should_skip_file, decision_of.
  destruct (OsPath.splitext (visit_path v)) as [base ext]; simpl.
  destruct (bool_decide _); [auto|].
  destruct (f_size (visit_node v)) as [size|]; [|auto].
  intros ->. auto.
Qed.

Lemma keep_decision v :
  _should_skip_file (visit_path v) (visit_node v) = false →
  decision_of v = match f_text (visit_node v) with
                  | None => NotUtf8
                  | Some _ => WasIndexed
                  end.
Proof.
  unfold _should_skip_file, decision_of.
  destruct (OsPath.splitext (visit_path v)) as [base ext]; simpl.
  destruct (bool_decide _); [discriminate|].
  destruct (f_size (visit_node v)) as [size|]; [|discriminate].
  intros ->. reflexivity.
Qed.

Lemma skip_log_line cwd directory v :
  _should_skip_file (visit_path v) (visit_node v) = true →
  log_line cwd directory v = "  skip  " +:+ visit_path v.
Proof.
  intros H. unfold log_line, shown_path.
  destruct (skip_decision v H) as [-> | [-> | ->]]; cbn [code_prefix code_suffix];
    now rewrite append_empty_r.
Qed.

Lemma keep_log_line cwd directory v :
  _should_skip_file (visit_path v) (visit_node v) = false →
  log_line cwd directory v
  = match f_text (visit_node v) with
    | Some _ => "  index " +:+ shown_relpath cwd directory v
    | None => "  skip  " +:+ visit_path v +:+ " (not utf-8)"
    end.
Proof.
  intros H. unfold log_line, shown_path. rewrite (keep_decision _ H).
  destruct (f_text (visit_node v)); cbn [code_prefix code_suffix].
  - now rewrite append_empty_r.
  - reflexivity.
Qed.

(** One turn of the loop body. *)
Lemma index_visit_spec collection verbose cwd directory recs v w :
  index_visit collection verbose cwd directory (to_buffers recs) v w
  = (Ok (to_buffers (batching recs (emitted cwd directory [v])).2),
     world_after collection w (batching recs (emitted cwd directory [v])).1
                 (opened_paths [v]) (log_lines verbose cwd directory [v])).
Proof.
  unfold index_visit, index_file, emitted, opened_paths, record_of.
  cbn [omap list_omap List.filter map].
  change (OsPath.join v.1.1 v.1.2) with (visit_path v).
  change v.2 with (visit_node v).
  destruct (_should_skip_file (visit_path v) (visit_node v)) eqn:Hskip.
  - cbn [negb map batching fst snd]. unfold log_lines. cbn [map].
    generalize (skip_log_line cwd directory v Hskip).
    generalize (log_line cwd directory v). intros line ->.
    destruct verbose; unfold bind, when, print, ret; simpl.
    + f_equal. destruct w; unfold world_after, add_stdout; simpl.
      now rewrite !app_nil_r.
    + now rewrite world_after_nothing.
  - cbn [negb map]. unfold bind at 1. unfold _read_text at 1.
    unfold log_lines. cbn [map].
    generalize (keep_log_line cwd directory v Hskip).
    generalize (log_line cwd directory v). intros line ->.
    destruct (f_text (visit_node v)) as [content|]; cbn [fmap option_fmap option_map].
    + cbn [batching].
      change (OsPath.relpath cwd (visit_path v) directory)
        with (shown_relpath cwd directory v).
      assert (Hb : {| ids := ids (to_buffers recs) ++ [_file_id (shown_relpath cwd directory v)];
                      documents := documents (to_buffers recs) ++ [content];
                      metadatas := metadatas (to_buffers recs)
                                   ++ [{[ "path" := shown_relpath cwd directory v ]}] |}
                   = to_buffers (recs ++ [make_record cwd directory v content])).
      { unfold to_buffers. simpl. now rewrite !map_app. }
      rewrite Hb. clear Hb.
      replace (length (ids (to_buffers (recs ++ [make_record cwd directory v content]))))
        with (length (recs ++ [make_record cwd directory v content]))
        by (unfold to_buffers; simpl; now rewrite length_map).
      destruct (50 <=? Z.of_nat (length (recs ++ [make_record cwd directory v content])));
        cbn [fst snd]; destruct verbose;
        unfold bind, when, print, ret, collection_upsert; simpl; f_equal;
        destruct w; unfold world_after, add_stdout, add_call, add_opened,
          set_collections, apply_upserts, contents_at; simpl;
        rewrite ?app_nil_r; reflexivity.
    + cbn [batching fst snd].
      destruct verbose; unfold bind, when, print, ret; simpl; f_equal;
        destruct w; unfold world_after, add_stdout, add_opened; simpl;
        rewrite ?app_nil_r; reflexivity.
Qed.

Lemma emitted_cons cwd directory v vs :
  emitted cwd directory (v :: vs) = emitted cwd directory [v] ++ emitted cwd directory vs.
Proof. unfold emitted. cbn [omap list_omap]. now destruct (record_of cwd directory v). Qed.

Lemma opened_paths_cons v vs : opened_paths (v :: vs) = opened_paths [v] ++ opened_paths vs.
Proof.
  unfold opened_paths. cbn [List.filter].
  now destruct (negb (_should_skip_file (visit_path v) (visit_node v))).
Qed.

Lemma log_lines_cons verbose cwd directory v vs :
  log_lines verbose cwd directory (v :: vs)
  = log_lines verbose cwd directory [v] ++ log_lines verbose cwd directory vs.
Proof. now destruct verbose. Qed.

(** The loop over all visited files, from a buffer holding [recs]. *)
Lemma index_loop_spec collection verbose cwd directory vs :
  ∀ recs w,
    foldM (index_visit collection verbose cwd directory) vs (to_buffers recs) w
    = (Ok (to_buffers (batching recs (emitted cwd directory vs)).2),
       world_after collection w (batching recs (emitted cwd directory vs)).1
                   (opened_paths vs) (log_lines verbose cwd directory vs)).
Proof.
  induction vs as [|v vs IH]; intros recs w.
  - cbn [foldM]. unfold ret, log_lines. cbn [emitted omap list_omap batching fst snd].
    rewrite (world_after_nothing collection w) || idtac.
    destruct verbose; cbn [map]; now rewrite world_after_nothing.
  - cbn [foldM]. rewrite (bind_ok _ _ _ _ _ (index_visit_spec _ _ _ _ _ _ _)).
    rewrite IH, world_after_compose.
    rewrite (emitted_cons _ _ v vs), batching_app.
    rewrite (opened_paths_cons v vs), (log_lines_cons _ _ _ v vs).
    reflexivity.
Qed.

(** ** Chunks *)

Lemma chunks_fuel_enough {A} (n : nat) :
  (0 < n)%nat →
  ∀ (f f' : nat) (l : list A),
    (length l ≤ f)%nat → (length l ≤ f')%nat →
    chunks_fuel f n l = chunks_fuel f' n l.
Proof.
  intros Hn. induction f as [|f IH]; intros f' l Hf Hf'.
  - destruct l; [|simpl in Hf; lia]. now destruct f'.
  - destruct l as [|x l]; [now destruct f'|].
    destruct f' as [|f']; [simpl in Hf'; lia|].
    cbn [chunks_fuel]. f_equal.
    assert (length (drop n (x :: l)) ≤ length l)%nat.
    { rewrite length_drop. simpl. lia. }
    simpl in Hf, Hf'. apply IH; lia.
Qed.

Lemma chunks_nil {A} (n : nat) : chunks n ([] : list A) = [].
Proof. reflexivity. Qed.

Lemma chunks_full {A} (n : nat) (x rest : list A) :
  (0 < n)%nat → length x = n → chunks n (x ++ rest) = x :: chunks n rest.
Proof.
  intros Hn Hx. unfold chunks.
  destruct (x ++ rest) as [|a l] eqn:E.
  - destruct x; simpl in *; [lia | discriminate].
  - cbn [length chunks_fuel]. rewrite <- E.
    assert (Hl : length (x ++ rest) = S (length l)) by now rewrite E.
    rewrite length_app in Hl. subst n.
    rewrite take_app_length, drop_app_length.
    f_equal. apply chunks_fuel_enough; lia.
Qed.

Lemma chunks_short {A} (n : nat) (x : list A) :
  x ≠ [] → (length x ≤ n)%nat → chunks n x = [x].
Proof.
  intros Hx Hn. unfold chunks. destruct x as [|a x]; [congruence|].
  cbn [length chunks_fuel].
  rewrite take_ge by assumption. rewrite drop_ge by assumption.
  now destruct (length x).
Qed.

Lemma concat_chunks {A} (n : nat) (l : list A) :
  (0 < n)%nat → concat (chunks n l) = l.
Proof.
  intros Hn. unfold chunks.
  assert (G : ∀ f (l : list A), (length l ≤ f)%nat → concat (chunks_fuel f n l) = l).
  { induction f as [|f IH]; intros l' Hl.
    - destruct l'; [reflexivity | simpl in Hl; lia].
    - destruct l' as [|a l']; [reflexivity|].
      cbn [chunks_fuel concat]. rewrite IH.
      + apply take_drop.
      + rewrite length_drop. simpl in *. lia. }
  now apply G.
Qed.

(** Every piece holds between 1 and [n] elements, and every piece but the
    last holds exactly [n]. *)
Lemma chunks_sizes {A} (n : nat) (l : list A) :
  (0 < n)%nat →
  ∀ (i : nat) (b : list A),
    chunks n l !! i = Some b →
    (1 ≤ length b ≤ n)%nat ∧ ((S i < length (chunks n l))%nat → length b = n).
Proof.
  intros Hn. unfold chunks.
  assert (G : ∀ f (l : list A) i b,
             chunks_fuel f n l !! i = Some b →
             (1 ≤ length b ≤ n)%nat
             ∧ ((S i < length (chunks_fuel f n l))%nat → length b = n)).
  { induction f as [|f IH]; intros l' i b Hb; [discriminate|].
    destruct l' as [|a l']; [discriminate|].
    cbn [chunks_fuel] in *. destruct i as [|i].
    - injection Hb as <-. rewrite length_take. cbn [length]. split; [lia|].
      intros Hlen. destruct f as [|f]; [simpl in Hlen; lia|].
      destruct (drop n (a :: l')) as [|y ys] eqn:E; [simpl in Hlen; lia|].
      assert (length (drop n (a :: l')) = S (length ys)) by now rewrite E.
      rewrite length_drop in *. cbn [length] in *. lia.
    - cbn [lookup list_lookup] in Hb. destruct (IH _ _ _ Hb) as [H1 H2].
      split; [assumption|]. intros Hlen. apply H2. cbn [length] in Hlen. lia. }
  apply G.
Qed.

(** The flushes of the loop, with the last flush of what is left, are the
    chunks of 50. *)
Lemma batching_chunks items :
  ∀ recs,
    (length recs < 50)%nat →
    (batching recs items).1
    ++ match (batching recs items).2 with [] => [] | _ :: _ => [(batching recs items).2] end
    = chunks 50 (recs ++ items).
Proof.
  induction items as [|r items IH]; intros recs Hlen.
  - cbn [batching fst snd app]. rewrite app_nil_r. destruct recs as [|a recs].
    + reflexivity.
    + symmetry. apply chunks_short; [discriminate | lia].
  - cbn [batching].
    replace (recs ++ r :: items) with ((recs ++ [r]) ++ items)
      by now rewrite <- app_assoc.
    destruct (50 <=? Z.of_nat (length (recs ++ [r]))) eqn:E.
    + cbn [fst snd]. rewrite <- app_comm_cons.
      rewrite (IH []) by (simpl; lia). cbn [app].
      symmetry. apply chunks_full; [lia|].
      apply Z.leb_le in E. rewrite length_app in *. simpl in *. lia.
    + apply IH. apply Z.leb_gt in E. lia.
Qed.

Lemma call_records_batch b : call_records (batch_call b) = b.
Proof.
  unfold batch_call, call_records. induction b as [|[[i d] m] b IH]; [reflexivity|].
  cbn [map combine stored_id stored_document stored_metadata fst snd]. now rewrite IH.
Qed.

Lemma upserted_batches bs : upserted (map batch_call bs) = concat bs.
Proof.
  unfold upserted. induction bs as [|b bs IH]; [reflexivity|].
  cbn [map flat_map concat]. now rewrite call_records_batch, IH.
Qed.

Lemma upserted_app cs1 cs2 : upserted (cs1 ++ cs2) = upserted cs1 ++ upserted cs2.
Proof. unfold upserted. apply flat_map_app. Qed.

Lemma upsert_as_world_after collection recs w :
  collection_upsert collection (ids (to_buffers recs)) (documents (to_buffers recs))
                    (metadatas (to_buffers recs)) w
  = (Ok tt, world_after collection w [recs] [] []).
Proof.
  unfold collection_upsert, world_after, add_call, set_collections, apply_upserts,
    contents_at. destruct w; simpl. now rewrite !app_nil_r.
Qed.

(** ** The indexing run *)

Lemma walk_and_index_spec directory verbose w :
  walk_and_index directory verbose w = (Ok tt, index_outcome w directory verbose).
Proof.
  unfold walk_and_index, index_outcome.
  set (cwd := w_cwd w). set (dir := OsPath.abspath cwd directory).
  set (coll := get_client dir).
  set (w1 := set_collections (<[coll := contents_at w coll]> (w_collections w)) w).
  rewrite (bind_ok getcwd _ w w cwd) by reflexivity. fold dir. fold coll.
  rewrite (bind_ok (get_collection coll) _ w w1 coll) by reflexivity.
  rewrite (bind_ok (os_walk_pruned dir) _ w1 w1 (walk_of w dir)) by reflexivity.
  change no_buffers with (to_buffers []).
  set (vs := run_visits w directory).
  set (items := emitted cwd dir vs).
  erewrite bind_ok; cycle 1.
  { rewrite nested_loops_visits. apply index_loop_spec. }
  change (visits (walk_of w dir)) with vs. fold items.
  pose proof (batching_chunks items [] ltac:(simpl; lia)) as Hc. cbn [app] in Hc.
  destruct (batching [] items) as [bs rem] eqn:Eb. cbn [fst snd] in *.
  replace (length (ids (to_buffers rem))) with (length rem)
    by (unfold to_buffers; simpl; now rewrite length_map).
  destruct rem as [|r rem]; cbn [length Nat.eqb negb when].
  - rewrite app_nil_r in Hc. subst bs.
    rewrite (bind_ok (ret tt) _ _ _ tt eq_refl).
    unfold bind, collection_count, print. reflexivity.
  - rewrite (bind_ok _ _ _ _ tt (upsert_as_world_after _ _ _)).
    rewrite world_after_compose, !app_nil_r, Hc.
    unfold bind, collection_count, print. reflexivity.
Qed.

Lemma index_outcome_calls w directory verbose :
  calls_since w (index_outcome w directory verbose)
  = map batch_call
        (chunks 50 (emitted (w_cwd w) (OsPath.abspath (w_cwd w) directory)
                            (run_visits w directory)))
    ++ [CallCount].
Proof.
  unfold calls_since, index_outcome. simpl.
  rewrite <- app_assoc. now rewrite drop_app_length.
Qed.

Lemma index_outcome_opened w directory verbose :
  opened_since w (index_outcome w directory verbose) = opened_paths (run_visits w directory).
Proof. unfold opened_since, index_outcome. simpl. now rewrite drop_app_length. Qed.

Lemma index_outcome_stderr w directory verbose :
  w_stderr (index_outcome w directory verbose) = w_stderr w.
Proof. reflexivity. Qed.

Lemma index_outcome_upserted w directory verbose :
  upserted (calls_since w (index_outcome w directory verbose))
  = emitted (w_cwd w) (OsPath.abspath (w_cwd w) directory) (run_visits w directory).
Proof.
  rewrite index_outcome_calls, upserted_app, upserted_batches.
  rewrite concat_chunks by lia. cbn. now rewrite app_nil_r.
Qed.

(** Where an upserted record comes from. *)
Lemma record_of_Some cwd directory v r :
  record_of cwd directory v = Some r ↔
  _should_skip_file (visit_path v) (visit_node v) = false
  ∧ ∃ content, f_text (visit_node v) = Some content
               ∧ r = make_record cwd directory v content.
Proof.
  unfold record_of.
  destruct (_should_skip_file (visit_path v) (visit_node v)).
  - split; [discriminate | intros [? _]; discriminate].
  - destruct (f_text (visit_node v)) as [content|]; cbn.
    + split.
      * intros [= <-]. eauto.
      * intros [_ (c & [= <-] & ->)]. reflexivity.
    + split; [discriminate | intros [_ (c & ? & _)]; discriminate].
Qed.

Lemma emitted_elem cwd directory vs r :
  r ∈ emitted cwd directory vs ↔ ∃ v, v ∈ vs ∧ record_of cwd directory v = Some r.
Proof. unfold emitted. apply list_elem_of_omap. Qed.

Lemma run_upserted_origin w directory verbose r :
  r ∈ upserted (calls_since w (walk_and_index directory verbose w).2) ↔
  ∃ v content,
    v ∈ run_visits w directory
    ∧ _should_skip_file (visit_path v) (visit_node v) = false
    ∧ f_text (visit_node v) = Some content
    ∧ r = make_record (w_cwd w) (OsPath.abspath (w_cwd w) directory) v content.
Proof.
  rewrite walk_and_index_spec. cbn [snd]. rewrite index_outcome_upserted, emitted_elem.
  split.
  - intros (v & Hv & Hr). apply record_of_Some in Hr as (Hs & c & Hc & ->). eauto 6.
  - intros (v & c & Hv & Hs & Hc & ->). exists v. split; [assumption|].
    apply record_of_Some. eauto.
Qed.

Lemma run_opened_origin w directory verbose p :
  p ∈ opened_since w (walk_and_index directory verbose w).2 ↔
  ∃ v, v ∈ run_visits w directory
       ∧ _should_skip_file (visit_path v) (visit_node v) = false
       ∧ p = visit_path v.
Proof.
  rewrite walk_and_index_spec. cbn [snd]. rewrite index_outcome_opened.
  unfold opened_paths. rewrite list_elem_of_fmap. split.
  - intros (v & -> & Hv). apply list_elem_of_In, filter_In in Hv as [Hv Hs].
    exists v. rewrite list_elem_of_In. now destruct (_should_skip_file _ _).
  - intros (v & Hv & Hs & ->). exists v. split; [reflexivity|].
    apply list_elem_of_In, filter_In. rewrite <- list_elem_of_In. now rewrite Hs.
Qed.

(** ** The filters *)

Lemma binary_extensions_lower e :
  e ∈ BINARY_EXTENSIONS → PyStr.lower e = e.
Proof.
  unfold BINARY_EXTENSIONS. rewrite elem_of_list_to_set. intros H.
  repeat (apply elem_of_cons in H; destruct H as [-> | H]; [reflexivity|]).
  now apply elem_of_nil in H.
Qed.

Lemma skip_binary_extension filepath node :
  PyStr.lower (OsPath.splitext filepath).2 ∈ BINARY_EXTENSIONS →
  _should_skip_file filepath node = true.
Proof.
  intros H. unfold _should_skip_file.
  destruct (OsPath.splitext filepath) as [base ext]; cbn [snd] in H.
  now rewrite bool_decide_eq_true_2.
Qed.

Lemma keep_file_inv filepath node :
  _should_skip_file filepath node = false →
  (PyStr.lower (OsPath.splitext filepath).2 ∉ BINARY_EXTENSIONS)
  ∧ (∃ size, f_size node = Some size ∧ size ≠ 0 ∧ size <= MAX_FILE_SIZE).
Proof.
  unfold _should_skip_file.
  destruct (OsPath.splitext filepath) as [base ext]; cbn [snd].
  destruct (bool_decide _) eqn:E; [discriminate|].
  apply bool_decide_eq_false in E.
  destruct (f_size node) as [size|]; [|discriminate].
  intros H. apply orb_false_iff in H as [H0 H1].
  apply Z.eqb_neq in H0. apply Z.ltb_ge in H1. eauto.
Qed.

Lemma keep_file_intro filepath node size :
  PyStr.lower (OsPath.splitext filepath).2 ∉ BINARY_EXTENSIONS →
  f_size node = Some size → size ≠ 0 → size <= MAX_FILE_SIZE →
  _should_skip_file filepath node = false.
Proof.
  intros He Hs H0 H1. unfold _should_skip_file.
  destruct (OsPath.splitext filepath) as [base ext]; cbn [snd] in He.
  rewrite bool_decide_eq_false_2 by assumption. rewrite Hs.
  apply orb_false_iff. split; [now apply Z.eqb_neq | now apply Z.ltb_ge].
Qed.

(** ** Record ids *)

(** C1: every record the indexing run hands to the store is built from a
    visited file, its id is the SHA-256 hex digest of the relative path kept
    in its metadata and of nothing else; hence two records with the same
    relative path, from any two runs and with any contents, have the same
    id. *)
Theorem C1_id_is_sha256_of_relative_path :
  (∀ w directory verbose r,
      r ∈ upserted (calls_since w (walk_and_index directory verbose w).2) →
      ∃ v content,
        v ∈ run_visits w directory
        ∧ f_text (visit_node v) = Some content
        ∧ stored_document r = content
        ∧ stored_metadata r
          = {[ "path" := OsPath.relpath (w_cwd w) (visit_path v)
                                        (OsPath.abspath (w_cwd w) directory) ]}
        ∧ stored_id r
          = Sha256.hexdigest (OsPath.relpath (w_cwd w) (visit_path v)
                                             (OsPath.abspath (w_cwd w) directory)))
  ∧ (∀ w1 directory1 verbose1 r1 w2 directory2 verbose2 r2,
        r1 ∈ upserted (calls_since w1 (walk_and_index directory1 verbose1 w1).2) →
        r2 ∈ upserted (calls_since w2 (walk_and_index directory2 verbose2 w2).2) →
        stored_metadata r1 !! "path" = stored_metadata r2 !! "path" →
        stored_id r1 = stored_id r2).
Proof.
  split.
  - intros w directory verbose r Hr.
    apply run_upserted_origin in Hr as (v & content & Hv & _ & Hc & ->).
    exists v, content. repeat split; assumption.
  - intros w1 d1 vb1 r1 w2 d2 vb2 r2 H1 H2 Hp.
    apply run_upserted_origin in H1 as (v1 & c1 & _ & _ & _ & ->).
    apply run_upserted_origin in H2 as (v2 & c2 & _ & _ & _ & ->).
    unfold make_record, stored_metadata, stored_id in *. cbn [fst snd] in *.
    unfold metadata in Hp. rewrite !lookup_singleton_eq in Hp.
    injection Hp as Hp. now rewrite Hp.
Qed.

Lemma C1_id_is_sha256_of_relative_path_witness :
  let r1 := make_record "/home/u" "/r" ("/r", "a.txt", text_file 5 "hello") "hello" in
  let r2 := make_record "/home/u" "/r" ("/r", "a.txt", text_file 3 "bye") "bye" in
  r1 ∈ upserted (calls_since (world_of sample_tree)
                             (walk_and_index "/r" false (world_of sample_tree)).2)
  ∧ r2 ∈ upserted (calls_since (world_of other_tree)
                               (walk_and_index "/r" true (world_of other_tree)).2)
  ∧ stored_document r1 ≠ stored_document r2
  ∧ stored_id r1 = stored_id r2.
Proof.
  intros r1 r2.
  assert (H1 : r1 ∈ upserted (calls_since (world_of sample_tree)
                                (walk_and_index "/r" false (world_of sample_tree)).2)).
  { apply run_upserted_origin.
    exists ("/r", "a.txt", text_file 5 "hello"), "hello".
    repeat split; try reflexivity. apply list_elem_of_In. vm_compute. tauto. }
  assert (H2 : r2 ∈ upserted (calls_since (world_of other_tree)
                                (walk_and_index "/r" true (world_of other_tree)).2)).
  { apply run_upserted_origin.
    exists ("/r", "a.txt", text_file 3 "bye"), "bye".
    repeat split; try reflexivity. apply list_elem_of_In. vm_compute. tauto. }
  split; [exact H1 | split; [exact H2 | split; [discriminate|]]].
  exact (proj2 C1_id_is_sha256_of_relative_path _ _ _ r1 _ _ _ r2 H1 H2 eq_refl).
Defined.

(** ** Per-file filters *)

(** C4: every record handed to the store, and every file opened for
    reading, belongs to a visited file whose extension (as
    [os.path.splitext] gives it) is not in [BINARY_EXTENSIONS]; a visited
    file whose extension is in the set yields no record. *)
Theorem C4_binary_extensions_never_included :
  ∀ w directory verbose,
    (∀ r, r ∈ upserted (calls_since w (walk_and_index directory verbose w).2) →
          ∃ v content,
            v ∈ run_visits w directory
            ∧ r = make_record (w_cwd w) (OsPath.abspath (w_cwd w) directory) v content
            ∧ (OsPath.splitext (visit_path v)).2 ∉ BINARY_EXTENSIONS)
    ∧ (∀ p, p ∈ opened_since w (walk_and_index directory verbose w).2 →
            (OsPath.splitext p).2 ∉ BINARY_EXTENSIONS)
    ∧ (∀ v, v ∈ run_visits w directory →
            (OsPath.splitext (visit_path v)).2 ∈ BINARY_EXTENSIONS →
            _should_skip_file (visit_path v) (visit_node v) = true
            ∧ record_of (w_cwd w) (OsPath.abspath (w_cwd w) directory) v = None).
Proof.
  intros w directory verbose.
  assert (K : ∀ filepath node,
             _should_skip_file filepath node = false →
             (OsPath.splitext filepath).2 ∉ BINARY_EXTENSIONS).
  { intros filepath node Hs He. apply keep_file_inv in Hs as [Hn _].
    apply Hn. now rewrite binary_extensions_lower. }
  split; [|split].
  - intros r Hr. apply run_upserted_origin in Hr as (v & c & Hv & Hs & _ & ->).
    exists v, c. eauto.
  - intros p Hp. apply run_opened_origin in Hp as (v & _ & Hs & ->). eauto.
  - intros v _ He.
    assert (Hs : _should_skip_file (visit_path v) (visit_node v) = true).
    { apply skip_binary_extension. now rewrite binary_extensions_lower. }
    split; [assumption|]. unfold record_of. now rewrite Hs.
Qed.

Lemma C4_binary_extensions_never_included_witness :
  let w := world_of sample_tree in
  let v : visit := ("/r", "c.png", text_file 10 "0123456789") in
  v ∈ run_visits w "/r"
  ∧ (OsPath.splitext (visit_path v)).2 ∈ BINARY_EXTENSIONS
  ∧ record_of (w_cwd w) (OsPath.abspath (w_cwd w) "/r") v = None
  ∧ ("/r/c.png" ∉ opened_since w (walk_and_index "/r" true w).2).
Proof.
  intros w v.
  assert (Hv : v ∈ run_visits w "/r").
  { apply list_elem_of_In. vm_compute. tauto. }
  assert (He : (OsPath.splitext (visit_path v)).2 ∈ BINARY_EXTENSIONS).
  { refine (bool_decide_unpack _ _). vm_compute. exact I. }
  split; [exact Hv | split; [exact He | split]].
  - exact (proj2 (proj2 (proj2 (C4_binary_extensions_never_included w "/r" true)) v Hv He)).
  - intros Hp.
    exact (proj1 (proj2 (C4_binary_extensions_never_included w "/r" true)) _ Hp He).
Defined.

(** C5: every record handed to the store, and every file opened for
    reading, belongs to a visited file whose size is known, is not 0 and is
    at most 1,000,000; a visited file of size 0 or of more than 1,000,000
    bytes is skipped and yields no record; and a size of exactly 1,000,000
    passes: such a file, when its extension is not binary and it decodes,
    is handed to the store. *)
Theorem C5_size_filter :
  ∀ w directory verbose,
    (∀ r, r ∈ upserted (calls_since w (walk_and_index directory verbose w).2) →
          ∃ v content size,
            v ∈ run_visits w directory
            ∧ r = make_record (w_cwd w) (OsPath.abspath (w_cwd w) directory) v content
            ∧ f_size (visit_node v) = Some size ∧ size ≠ 0 ∧ size <= 1000000)
    ∧ (∀ p, p ∈ opened_since w (walk_and_index directory verbose w).2 →
            ∃ v size, v ∈ run_visits w directory ∧ p = visit_path v
                      ∧ f_size (visit_node v) = Some size ∧ size ≠ 0 ∧ size <= 1000000)
    ∧ (∀ v size, v ∈ run_visits w directory →
                 f_size (visit_node v) = Some size →
                 size = 0 ∨ 1000000 < size →
                 _should_skip_file (visit_path v) (visit_node v) = true
                 ∧ record_of (w_cwd w) (OsPath.abspath (w_cwd w) directory) v = None)
    ∧ (∀ v content, v ∈ run_visits w directory →
                    f_size (visit_node v) = Some 1000000 →
                    PyStr.lower (OsPath.splitext (visit_path v)).2 ∉ BINARY_EXTENSIONS →
                    f_text (visit_node v) = Some content →
                    _should_skip_file (visit_path v) (visit_node v) = false
                    ∧ make_record (w_cwd w) (OsPath.abspath (w_cwd w) directory) v content
                      ∈ upserted (calls_since w (walk_and_index directory verbose w).2)).
Proof.
  intros w directory verbose. split; [|split; [|split]].
  - intros r Hr. apply run_upserted_origin in Hr as (v & c & Hv & Hs & _ & ->).
    apply keep_file_inv in Hs as (_ & size & Hsz & H0 & H1).
    exists v, c, size. auto.
  - intros p Hp. apply run_opened_origin in Hp as (v & Hv & Hs & ->).
    apply keep_file_inv in Hs as (_ & size & Hsz & H0 & H1).
    exists v, size. auto.
  - intros v size _ Hsz Hbad.
    assert (Hs : _should_skip_file (visit_path v) (visit_node v) = true).
    { destruct (_should_skip_file (visit_path v) (visit_node v)) eqn:E; [reflexivity|].
      apply keep_file_inv in E as (_ & size' & Hsz' & H0 & H1).
      rewrite Hsz in Hsz'. injection Hsz' as <-. unfold MAX_FILE_SIZE in H1. lia. }
    split; [assumption|]. unfold record_of. now rewrite Hs.
  - intros v content Hv Hsz He Hc.
    assert (Hs : _should_skip_file (visit_path v) (visit_node v) = false).
    { apply (keep_file_intro _ _ 1000000); [assumption | assumption | lia |].
      unfold MAX_FILE_SIZE. lia. }
    split; [assumption|]. apply run_upserted_origin. eauto 6.
Qed.

Lemma C5_size_filter_witness :
  let w := world_of sample_tree in
  let ok : visit := ("/r", "ok.md", text_file 1000000 "ok") in
  let big : visit := ("/r", "big.md", text_file 1000001 "big") in
  let empty : visit := ("/r", "empty.txt", text_file 0 "") in
  make_record "/home/u" "/r" ok "ok"
    ∈ upserted (calls_since w (walk_and_index "/r" false w).2)
  ∧ record_of "/home/u" "/r" big = None
  ∧ record_of "/home/u" "/r" empty = None.
Proof.
  intros w ok big empty.
  assert (Hin : ∀ v, In v (run_visits w "/r") → v ∈ run_visits w "/r").
  { intros v. apply list_elem_of_In. }
  split; [|split].
  - refine (proj2 (proj2 (proj2 (proj2 (C5_size_filter w "/r" false))) ok "ok"
                         (Hin _ _) eq_refl _ eq_refl)).
    + vm_compute. tauto.
    + refine (bool_decide_unpack _ _). vm_compute. exact I.
  - refine (proj2 (proj1 (proj2 (proj2 (C5_size_filter w "/r" false))) big 1000001
                         (Hin _ _) eq_refl _)).
    + vm_compute. tauto.
    + right. lia.
  - refine (proj2 (proj1 (proj2 (proj2 (C5_size_filter w "/r" false))) empty 0
                         (Hin _ _) eq_refl _)).
    + vm_compute. tauto.
    + left. reflexivity.
Defined.

(** ** Batches *)

Lemma emitted_length cwd directory vs :
  length (emitted cwd directory vs) = length (List.filter qualifies vs).
Proof.
  induction vs as [|v vs IH]; [reflexivity|].
  rewrite emitted_cons, length_app, IH. cbn [List.filter emitted omap list_omap].
  unfold qualifies, record_of.
  destruct (_should_skip_file (visit_path v) (visit_node v)); [reflexivity|].
  destruct (f_text (visit_node v)) as [c|]; cbn [negb andb fmap option_fmap option_map].
  - rewrite bool_decide_eq_true_2 by eauto. reflexivity.
  - rewrite bool_decide_eq_false_2 by (intros [? ?]; discriminate). reflexivity.
Qed.

Lemma chunks_120 {A} (l : list A) :
  length l = 120%nat →
  ∃ b1 b2 b3, chunks 50 l = [b1; b2; b3] ∧ l = b1 ++ b2 ++ b3
              ∧ length b1 = 50%nat ∧ length b2 = 50%nat ∧ length b3 = 20%nat.
Proof.
  intros Hl.
  exists (take 50 l), (take 50 (drop 50 l)), (drop 50 (drop 50 l)).
  assert (L1 : length (take 50 l) = 50%nat) by (rewrite length_take; lia).
  assert (L2 : length (take 50 (drop 50 l)) = 50%nat)
    by (rewrite length_take, length_drop; lia).
  assert (L3 : length (drop 50 (drop 50 l)) = 20%nat)
    by (rewrite !length_drop; lia).
  assert (E : l = take 50 l ++ take 50 (drop 50 l) ++ drop 50 (drop 50 l))
    by now rewrite !take_drop.
  split; [|auto].
  rewrite E at 1.
  rewrite chunks_full by (lia || assumption).
  rewrite chunks_full by (lia || assumption).
  rewrite chunks_short; [reflexivity | | lia].
  intros H0. rewrite H0 in L3. discriminate.
Qed.

(** C2: a record appended to a buffer of fewer than 50 is flushed with the
    whole buffer, in one upsert call that leaves the buffer empty, exactly
    when it is the 50th, and otherwise stays buffered with no call; over the
    whole run the upsert calls are the records of the qualifying files cut
    into consecutive batches of 50, a shorter non-empty remainder being
    flushed once at the end; with 120 qualifying files there are exactly 3
    upsert calls, of 50, 50 and 20 records in that order. *)
Theorem C2_batches_of_50 :
  (∀ collection verbose cwd directory recs v r w,
      (length recs < 50)%nat →
      record_of cwd directory v = Some r →
      let out := index_visit collection verbose cwd directory (to_buffers recs) v w in
      (length (recs ++ [r]) = 50%nat →
       out.1 = Ok no_buffers ∧ calls_since w out.2 = [batch_call (recs ++ [r])])
      ∧ ((length (recs ++ [r]) < 50)%nat →
         out.1 = Ok (to_buffers (recs ++ [r])) ∧ calls_since w out.2 = []))
  ∧ (∀ w directory verbose,
        let recs := emitted (w_cwd w) (OsPath.abspath (w_cwd w) directory)
                            (run_visits w directory) in
        let w' := (walk_and_index directory verbose w).2 in
        calls_since w w' = map batch_call (chunks 50 recs) ++ [CallCount]
        ∧ concat (chunks 50 recs) = recs
        ∧ length recs = length (List.filter qualifies (run_visits w directory))
        ∧ (∀ i b, chunks 50 recs !! i = Some b →
                  (1 ≤ length b ≤ 50)%nat
                  ∧ ((S i < length (chunks 50 recs))%nat → length b = 50%nat))
        ∧ (length (List.filter qualifies (run_visits w directory)) = 120%nat →
           ∃ b1 b2 b3,
             calls_since w w' = [batch_call b1; batch_call b2; batch_call b3; CallCount]
             ∧ recs = b1 ++ b2 ++ b3
             ∧ length b1 = 50%nat ∧ length b2 = 50%nat ∧ length b3 = 20%nat)).
Proof.
  split.
  - intros collection verbose cwd directory recs v r w Hlen Hr out.
    subst out. rewrite index_visit_spec. cbn [fst snd].
    unfold emitted. cbn [omap list_omap]. rewrite Hr. cbn [batching].
    clear Hr.
    unfold calls_since, world_after. cbn [w_calls].
    rewrite drop_app_length. split; intros H.
    + rewrite H. cbn [Z.leb fst snd map]. split; reflexivity.
    + destruct (50 <=? Z.of_nat (length (recs ++ [r]))) eqn:E.
      * apply Z.leb_le in E. lia.
      * cbn [fst snd map]. split; reflexivity.
  - intros w directory verbose recs w'. subst w'.
    rewrite walk_and_index_spec. cbn [snd]. rewrite index_outcome_calls. fold recs.
    split; [reflexivity|]. split; [apply concat_chunks; lia|].
    split; [exact (emitted_length _ _ _)|]. split; [apply chunks_sizes; lia|].
    intros H120. rewrite <- (emitted_length (w_cwd w) (OsPath.abspath (w_cwd w) directory))
      in H120. fold recs in H120.
    destruct (chunks_120 _ H120) as (b1 & b2 & b3 & Hc & Hrec & L1 & L2 & L3).
    fold recs in Hc, Hrec.
    exists b1, b2, b3. rewrite Hc. auto.
Qed.

Lemma C2_batches_of_50_witness :
  let w := world_of (many_files 120) in
  length (List.filter qualifies (run_visits w "/r")) = 120%nat
  ∧ ∃ b1 b2 b3,
      calls_since w (walk_and_index "/r" false w).2
      = [batch_call b1; batch_call b2; batch_call b3; CallCount]
      ∧ emitted (w_cwd w) (OsPath.abspath (w_cwd w) "/r") (run_visits w "/r")
        = b1 ++ b2 ++ b3
      ∧ length b1 = 50%nat ∧ length b2 = 50%nat ∧ length b3 = 20%nat.
Proof.
  intros w.
  assert (H : length (List.filter qualifies (run_visits w "/r")) = 120%nat).
  { vm_compute. reflexivity. }
  split; [exact H|].
  exact (proj2 (proj2 (proj2 (proj2 (proj2 C2_batches_of_50 w "/r" false)))) H).
Defined.

(** ** Pruning *)

Lemma dir_induction (P : dir → Prop) :
  (∀ files subdirs, Forall (fun e => P e.2) subdirs → P (Dir files subdirs)) →
  ∀ d, P d.
Proof.
  intros H.
  exact (fix IH (d : dir) : P d :=
           match d with
           | Dir files subdirs =>
               H files subdirs
                 ((fix go (l : list (string * dir)) : Forall (fun e => P e.2) l :=
                     match l with
                     | [] => List.Forall_nil _
                     | e :: l' => List.Forall_cons _ e l' (IH e.2) (go l')
                     end) subdirs)
           end).
Qed.

Lemma visits_app t1 t2 : visits (t1 ++ t2) = visits t1 ++ visits t2.
Proof. unfold visits. apply flat_map_app. Qed.

(** Every chain listed by [all_files] extends the chain it started from. *)
Lemma all_files_chain d :
  ∀ chain top x, In x (all_files chain top d) → ∃ rest, x.1 = chain ++ rest.
Proof.
  induction d as [files subdirs IH] using dir_induction.
  intros chain top x Hx. cbn [all_files] in Hx. apply in_app_or in Hx as [Hx | Hx].
  - apply in_map_iff in Hx as (e & <- & _). exists []. now rewrite app_nil_r.
  - induction subdirs as [|[dirname sub] subdirs IHs]; [contradiction|].
    apply Forall_cons in IH as [IH1 IH2].
    apply in_app_or in Hx as [Hx | Hx].
    + destruct (IH1 _ _ _ Hx) as [rest Hr]. exists (dirname :: rest).
      rewrite Hr. now rewrite <- app_assoc.
    + now apply IHs.
Qed.

Lemma filter_none {A} (f : A → bool) (l : list A) :
  (∀ x, In x l → f x = false) → List.filter f l = [].
Proof.
  induction l as [|a l IH]; intros H; [reflexivity|].
  cbn [List.filter]. rewrite (H a) by now left. apply IH. intros x Hx. apply H. now right.
Qed.

(** Walking with pruning visits exactly the files whose chain of directory
    names holds no pruned name, in the order of the tree. *)
Lemma os_walk_all_files keep d :
  ∀ chain top,
    forallb keep chain = true →
    visits (os_walk keep top d)
    = map snd (List.filter (fun x => forallb keep x.1) (all_files chain top d)).
Proof.
  induction d as [files subdirs IH] using dir_induction.
  intros chain top Hchain. cbn [os_walk all_files].
  match goal with
  | |- visits (?t :: ?l) = _ => change (t :: l) with ([t] ++ l)
  end.
  rewrite visits_app, List.filter_app, map_app. f_equal.
  - unfold visits. cbn [flat_map fst snd]. rewrite app_nil_r.
    induction files as [|e files IHf]; [reflexivity|].
    cbn [map List.filter fst]. rewrite Hchain. cbn [map snd]. now rewrite IHf.
  - induction subdirs as [|[dirname sub] subdirs IHs]; [reflexivity|].
    apply Forall_cons in IH as [IH1 IH2]. cbn [snd] in IH1.
    rewrite List.filter_app, map_app. pose proof (IHs IH2) as Q.
    destruct (keep dirname) eqn:Hk.
    + rewrite visits_app. f_equal; [|exact Q]. apply IH1.
      rewrite forallb_app, Hchain. cbn. now rewrite Hk.
    + rewrite filter_none; [exact Q|].
      intros x Hx. destruct (all_files_chain _ _ _ _ Hx) as [rest Hr].
      rewrite Hr, <- app_assoc, !forallb_app. cbn. rewrite Hk.
      now rewrite andb_false_r.
Qed.

Lemma keep_dir_spec d : keep_dir d = true ↔ d ∉ SKIP_DIRS.
Proof. unfold keep_dir. apply bool_decide_eq_true. Qed.

Lemma run_visits_tree_files w directory :
  run_visits w directory
  = map snd (List.filter (fun x => forallb keep_dir x.1)
                         (tree_files w (OsPath.abspath (w_cwd w) directory))).
Proof.
  unfold run_visits, walk_of, tree_files.
  destruct (w_fs w (OsPath.abspath (w_cwd w) directory)) as [d|]; [|reflexivity].
  now apply os_walk_all_files.
Qed.

Lemma run_visits_chain w directory v :
  v ∈ run_visits w directory →
  ∃ chain, (chain, v) ∈ tree_files w (OsPath.abspath (w_cwd w) directory)
           ∧ Forall (fun name => name ∉ SKIP_DIRS) chain.
Proof.
  rewrite run_visits_tree_files, list_elem_of_In, in_map_iff.
  intros ([chain v'] & <- & Hx). apply filter_In in Hx as [Hx Hk].
  exists chain. split; [now apply list_elem_of_In|].
  cbn [fst] in Hk. rewrite forallb_forall in Hk. apply List.Forall_forall.
  intros name Hn. apply keep_dir_spec. auto.
Qed.

Lemma os_walk_prune keep d :
  ∀ top, os_walk keep top (prune keep d) = os_walk keep top d.
Proof.
  induction d as [files subdirs IH] using dir_induction.
  intros top. cbn [prune os_walk]. f_equal.
  - f_equal. f_equal. clear IH.
    induction subdirs as [|[dirname sub] subdirs IHs]; [reflexivity|].
    cbn [map fst List.filter]. destruct (keep dirname) eqn:Hk.
    + cbn [map fst List.filter]. rewrite Hk. f_equal. exact IHs.
    + exact IHs.
  - induction subdirs as [|[dirname sub] subdirs IHs]; [reflexivity|].
    apply Forall_cons in IH as [IH1 IH2]. cbn [snd] in IH1.
    pose proof (IHs IH2) as Q.
    destruct (keep dirname) eqn:Hk.
    + rewrite Hk. f_equal; [apply IH1 | exact Q].
    + exact Q.
Qed.

Lemma run_visits_without_skipped w directory :
  run_visits (without_skipped w) directory = run_visits w directory.
Proof.
  unfold run_visits, walk_of, without_skipped. cbn [w_fs w_cwd].
  destruct (w_fs w (OsPath.abspath (w_cwd w) directory)) as [d|]; [|reflexivity].
  cbn. now rewrite os_walk_prune.
Qed.

Lemma index_outcome_without_skipped w directory verbose :
  index_outcome (without_skipped w) directory verbose
  = without_skipped (index_outcome w directory verbose).
Proof.
  unfold index_outcome. rewrite run_visits_without_skipped. reflexivity.
Qed.

(** C6: the walk visits exactly the files of the tree that are reached from
    the root through directories whose names are not in [SKIP_DIRS], so
    every record handed to the store and every file opened lies beneath no
    excluded directory, whatever the files beneath such directories are; and
    the whole run is the run on the tree in which the excluded directories
    do not exist. *)
Theorem C6_excluded_directories_pruned :
  ∀ w directory verbose,
    run_visits w directory
    = map snd (List.filter (fun x => forallb keep_dir x.1)
                           (tree_files w (OsPath.abspath (w_cwd w) directory)))
    ∧ (∀ r, r ∈ upserted (calls_since w (walk_and_index directory verbose w).2) →
            ∃ chain v content,
              (chain, v) ∈ tree_files w (OsPath.abspath (w_cwd w) directory)
              ∧ Forall (fun name => name ∉ SKIP_DIRS) chain
              ∧ r = make_record (w_cwd w) (OsPath.abspath (w_cwd w) directory) v content)
    ∧ (∀ p, p ∈ opened_since w (walk_and_index directory verbose w).2 →
            ∃ chain v,
              (chain, v) ∈ tree_files w (OsPath.abspath (w_cwd w) directory)
              ∧ Forall (fun name => name ∉ SKIP_DIRS) chain
              ∧ p = visit_path v)
    ∧ (∀ chain v name,
          name ∈ chain → name ∈ SKIP_DIRS →
          (chain, v) ∉ List.filter (fun x => forallb keep_dir x.1)
                                   (tree_files w (OsPath.abspath (w_cwd w) directory)))
    ∧ walk_and_index directory verbose (without_skipped w)
      = (Ok tt, without_skipped (walk_and_index directory verbose w).2).
Proof.
  intros w directory verbose. split; [apply run_visits_tree_files|].
  split; [|split; [|split]].
  - intros r Hr. apply run_upserted_origin in Hr as (v & c & Hv & _ & _ & ->).
    destruct (run_visits_chain _ _ _ Hv) as (chain & Hin & Hok). eauto 6.
  - intros p Hp. apply run_opened_origin in Hp as (v & Hv & _ & ->).
    destruct (run_visits_chain _ _ _ Hv) as (chain & Hin & Hok). eauto 6.
  - intros chain v name Hn Hs Hin.
    apply list_elem_of_In, filter_In in Hin as [_ Hk]. cbn [fst] in Hk.
    rewrite forallb_forall in Hk. apply list_elem_of_In in Hn.
    apply Hk, keep_dir_spec in Hn. contradiction.
  - rewrite !walk_and_index_spec. cbn [snd].
    now rewrite index_outcome_without_skipped.
Qed.

Lemma C6_excluded_directories_pruned_witness :
  let w := world_of sample_tree in
  let hidden : visit := ("/r/src/.git", "HEAD", text_file 4 "ref:") in
  ([ "src"; ".git" ], hidden) ∈ tree_files w "/r"
  ∧ (hidden ∉ run_visits w "/r")
  ∧ ("/r/src/.git/HEAD" ∉ opened_since w (walk_and_index "/r" false w).2)
  ∧ "/r/src/m.py" ∈ opened_since w (walk_and_index "/r" false w).2.
Proof.
  intros w hidden.
  pose proof (C6_excluded_directories_pruned w "/r" false) as (Hv & _ & _ & Hdrop & _).
  assert (Hs : ".git" ∈ SKIP_DIRS).
  { refine (bool_decide_unpack _ _). vm_compute. exact I. }
  split; [|split; [|split]].
  - apply list_elem_of_In. vm_compute. tauto.
  - rewrite Hv. intros Hin. apply list_elem_of_fmap in Hin as ([chain v] & E & Hin).
    cbn [snd] in E. subst v.
    apply list_elem_of_In in Hin. vm_compute in Hin.
    repeat (destruct Hin as [Hin | Hin]; [discriminate Hin|]). exact Hin.
  - intros Hin. apply list_elem_of_In in Hin. vm_compute in Hin.
    repeat (destruct Hin as [Hin | Hin]; [discriminate Hin|]). exact Hin.
  - apply list_elem_of_In. vm_compute. tauto.
Defined.

(** ** Case of the extension *)

Lemma lower_ascii_variant (a b : ascii) :
  plain b = true → a = b ∨ a = upper_ascii b →
  PyStr.lower_ascii a = b ∧ a ≠ "226"%char.
Proof.
  destruct b as [[] [] [] [] [] [] [] []]; intros Hp; try discriminate Hp;
    (intros [-> | ->]; (split; [reflexivity | discriminate])).
Qed.

Lemma lower_cons (a : ascii) (s : string) :
  a ≠ "226"%char → PyStr.lower (String a s) = String (PyStr.lower_ascii a) (PyStr.lower s).
Proof.
  intros Ha.
  destruct a as [[] [] [] [] [] [] [] []]; try reflexivity.
  exfalso. apply Ha. reflexivity.
Qed.

Lemma lower_case_variant (e : string) :
  plain_string e = true → ∀ s, case_variant s e → PyStr.lower s = e.
Proof.
  unfold plain_string.
  induction e as [|b e IH]; intros Hp s Hs.
  - destruct s; [reflexivity | contradiction].
  - destruct s as [|a s]; [contradiction|].
    cbn [String.list_ascii_of_string forallb] in Hp.
    apply andb_true_iff in Hp as [Hb He].
    cbn [case_variant] in Hs. destruct Hs as [Ha Hs].
    destruct (lower_ascii_variant a b Hb Ha) as [Hl Hn].
    rewrite lower_cons by assumption. rewrite Hl. f_equal. now apply IH.
Qed.

Lemma binary_extensions_plain e :
  e ∈ BINARY_EXTENSIONS → plain_string e = true.
Proof.
  unfold BINARY_EXTENSIONS. rewrite elem_of_list_to_set. intros H.
  repeat (apply elem_of_cons in H; destruct H as [-> | H]; [reflexivity|]).
  now apply elem_of_nil in H.
Qed.

(** C9: the extension is lowered before the membership test, so a file
    whose extension spells a member of [BINARY_EXTENSIONS] with any of its
    letters in upper case is skipped without being opened, and no record
    handed to the store and no file opened has such an extension. *)
Theorem C9_binary_filter_ignores_case :
  (∀ filepath node,
      PyStr.lower (OsPath.splitext filepath).2 ∈ BINARY_EXTENSIONS →
      _should_skip_file filepath node = true)
  ∧ (∀ filepath node e,
        e ∈ BINARY_EXTENSIONS → case_variant (OsPath.splitext filepath).2 e →
        _should_skip_file filepath node = true)
  ∧ (∀ w directory verbose,
        (∀ r, r ∈ upserted (calls_since w (walk_and_index directory verbose w).2) →
              ∃ v content,
                v ∈ run_visits w directory
                ∧ r = make_record (w_cwd w) (OsPath.abspath (w_cwd w) directory) v content
                ∧ ∀ e, e ∈ BINARY_EXTENSIONS →
                       ¬ case_variant (OsPath.splitext (visit_path v)).2 e)
        ∧ (∀ p e, p ∈ opened_since w (walk_and_index directory verbose w).2 →
                  e ∈ BINARY_EXTENSIONS → ¬ case_variant (OsPath.splitext p).2 e)).
Proof.
  assert (K : ∀ filepath node e,
             e ∈ BINARY_EXTENSIONS → case_variant (OsPath.splitext filepath).2 e →
             _should_skip_file filepath node = true).
  { intros filepath node e He Hv. apply skip_binary_extension.
    rewrite (lower_case_variant e (binary_extensions_plain e He) _ Hv). exact He. }
  split; [exact skip_binary_extension|]. split; [exact K|].
  intros w directory verbose. split.
  - intros r Hr. apply run_upserted_origin in Hr as (v & c & Hv & Hs & _ & ->).
    exists v, c. split; [assumption|]. split; [reflexivity|].
    intros e He Hcv. rewrite (K _ (visit_node v) e He Hcv) in Hs. discriminate.
  - intros p e Hp He Hcv. apply run_opened_origin in Hp as (v & _ & Hs & ->).
    rewrite (K _ (visit_node v) e He Hcv) in Hs. discriminate.
Qed.

Lemma C9_binary_filter_ignores_case_witness :
  let w := world_of sample_tree in
  ".png" ∈ BINARY_EXTENSIONS
  ∧ case_variant (OsPath.splitext "/r/b.PNG").2 ".png"
  ∧ _should_skip_file "/r/b.PNG" (text_file 5 "hello") = true
  ∧ ("/r/b.PNG" ∉ opened_since w (walk_and_index "/r" false w).2).
Proof.
  intros w.
  assert (He : ".png" ∈ BINARY_EXTENSIONS).
  { refine (bool_decide_unpack _ _). vm_compute. exact I. }
  assert (Hv : case_variant (OsPath.splitext "/r/b.PNG").2 ".png").
  { vm_compute. repeat split; (left; reflexivity) || (right; reflexivity). }
  split; [exact He | split; [exact Hv | split]].
  - exact (proj1 (proj2 C9_binary_filter_ignores_case) "/r/b.PNG" _ ".png" He Hv).
  - intros Hp.
    exact (proj2 (proj2 (proj2 C9_binary_filter_ignores_case) w "/r" false)
                 "/r/b.PNG" ".png" Hp He Hv).
Defined.

(** ** The verbose log *)

Lemma index_outcome_stdout w directory verbose :
  ∃ total,
    stdout_since w (index_outcome w directory verbose)
    = log_lines verbose (w_cwd w) (OsPath.abspath (w_cwd w) directory)
                (run_visits w directory)
      ++ [summary_line total].
Proof.
  eexists. unfold stdout_since, index_outcome, add_stdout. cbn [w_stdout].
  unfold add_call, world_after, set_collections. cbn [w_stdout].
  rewrite <- app_assoc, drop_app_length. reflexivity.
Qed.

Lemma decision_indexed v : decision_of v = WasIndexed ↔ qualifies v = true.
Proof.
  unfold qualifies.
  destruct (_should_skip_file (visit_path v) (visit_node v)) eqn:Hs.
  - cbn [negb andb]. split; [|discriminate].
    intros H. destruct (skip_decision v Hs) as [E | [E | E]]; congruence.
  - rewrite (keep_decision v Hs). cbn [negb andb].
    destruct (f_text (visit_node v)) as [c|].
    + rewrite bool_decide_eq_true_2 by eauto. tauto.
    + rewrite bool_decide_eq_false_2 by (intros [? ?]; discriminate).
      split; discriminate.
Qed.

(** C8 (amended): with verbose on, the run prints one line per visited
    file, in order, before the final count: "  skip  " and the joined path
    for a file rejected by [_should_skip_file] (binary extension, size
    unavailable, zero or too large: the line is the same for all three and
    names no reason), "  skip  ", the path and " (not utf-8)" for a file
    that does not decode, "  index " and the relative path for an indexed
    file; with verbose off only the final count is printed. *)
Theorem C8_verbose_log :
  ∀ w directory,
    let cwd := w_cwd w in
    let dir := OsPath.abspath cwd directory in
    (∃ total,
        stdout_since w (walk_and_index directory true w).2
        = map (log_line cwd dir) (run_visits w directory) ++ [summary_line total])
    ∧ (∃ total,
        stdout_since w (walk_and_index directory false w).2 = [summary_line total])
    ∧ (∀ v, log_line cwd dir v
            = match decision_of v with
              | BinaryExtension | SizeUnavailable | ZeroOrTooLarge =>
                  "  skip  " +:+ visit_path v
              | NotUtf8 => "  skip  " +:+ visit_path v +:+ " (not utf-8)"
              | WasIndexed => "  index " +:+ OsPath.relpath cwd (visit_path v) dir
              end)
    ∧ (∀ v, (_should_skip_file (visit_path v) (visit_node v) = true ↔
             decision_of v = BinaryExtension ∨ decision_of v = SizeUnavailable
             ∨ decision_of v = ZeroOrTooLarge)
            ∧ (decision_of v = WasIndexed ↔ qualifies v = true)).
Proof.
  intros w directory cwd dir. split; [|split; [|split]].
  - rewrite walk_and_index_spec. exact (index_outcome_stdout w directory true).
  - rewrite walk_and_index_spec. exact (index_outcome_stdout w directory false).
  - intros v. unfold log_line, shown_path, shown_relpath.
    destruct (decision_of v); cbn [code_prefix code_suffix];
      rewrite ?append_empty_r; reflexivity.
  - intros v. split; [|apply decision_indexed]. split; [apply skip_decision|].
    intros H. destruct (_should_skip_file (visit_path v) (visit_node v)) eqn:Hs;
      [reflexivity|].
    rewrite (keep_decision v Hs) in H.
    destruct (f_text (visit_node v)); destruct H as [H | [H | H]]; discriminate.
Qed.

Lemma wording_of_a_png (p s : string) :
  "  skip  /r/a.png" = p +:+ "/r/a.png" +:+ s → p = "  skip  " ∧ s = "".
Proof. intros H. peel_prefix H. Qed.

Lemma wording_of_b_txt (p s : string) :
  "  skip  /r/b.txt" = p +:+ "/r/b.txt" +:+ s → p = "  skip  " ∧ s = "".
Proof. intros H. peel_prefix H. Qed.

(** C8 as stated fails: in a directory holding a picture [a.png] and an
    empty [b.txt], the first is rejected by the extension filter and the
    second by the size filter, and the verbose log has the same words
    around both paths, so no wording per reason accounts for the log. *)
Lemma C8_reasons_not_logged : ¬ reasons_logged (world_of two_skipped) "/r".
Proof.
  intros (before & after & Hinj & Heq).
  assert (E1 : take (length (run_visits (world_of two_skipped) "/r"))
                    (stdout_since (world_of two_skipped)
                       (walk_and_index "/r" true (world_of two_skipped)).2)
               = ["  skip  /r/a.png"; "  skip  /r/b.txt"])
    by (vm_compute; reflexivity).
  assert (E2 : run_visits (world_of two_skipped) "/r"
               = [("/r", "a.png", text_file 10 "0123456789");
                  ("/r", "b.txt", text_file 0 "")])
    by (vm_compute; reflexivity).
  rewrite E1, E2 in Heq. cbn [map] in Heq. clear E1 E2.
  replace (decision_of ("/r", "a.png", text_file 10 "0123456789"))
    with BinaryExtension in Heq by (vm_compute; reflexivity).
  replace (decision_of ("/r", "b.txt", text_file 0 ""))
    with ZeroOrTooLarge in Heq by (vm_compute; reflexivity).
  replace (shown_path (w_cwd (world_of two_skipped))
             (OsPath.abspath (w_cwd (world_of two_skipped)) "/r")
             ("/r", "a.png", text_file 10 "0123456789"))
    with "/r/a.png" in Heq by (vm_compute; reflexivity).
  replace (shown_path (w_cwd (world_of two_skipped))
             (OsPath.abspath (w_cwd (world_of two_skipped)) "/r")
             ("/r", "b.txt", text_file 0 ""))
    with "/r/b.txt" in Heq by (vm_compute; reflexivity).
  injection Heq as Ha Hb.
  apply wording_of_a_png in Ha as [Ha1 Ha2].
  apply wording_of_b_txt in Hb as [Hb1 Hb2].
  assert (Hbad : BinaryExtension = ZeroOrTooLarge) by (apply Hinj; congruence).
  discriminate Hbad.
Qed.

Lemma C8_verbose_log_witness :
  ∃ total,
    stdout_since (world_of sample_tree) (walk_and_index "/r" true (world_of sample_tree)).2
    = [ "  index a.txt"; "  skip  /r/b.PNG"; "  skip  /r/c.png"; "  skip  /r/empty.txt";
        "  skip  /r/big.md"; "  index ok.md"; "  skip  /r/raw.txt (not utf-8)";
        "  index src/m.py" ] ++ [summary_line total].
Proof.
  destruct (proj1 (C8_verbose_log (world_of sample_tree) "/r")) as [total H].
  exists total. rewrite H. f_equal.
Defined.

(** ** Queries *)

Lemma contents_at_get_collection w coll :
  contents_at (set_collections (<[coll := contents_at w coll]> (w_collections w)) w) coll
  = contents_at w coll.
Proof. unfold contents_at at 1. cbn [w_collections set_collections]. now rewrite lookup_insert_eq. Qed.

(** The world in which the query is dispatched: the collection was opened
    and counted. *)
Lemma query_collection_unfold directory query_text n_results w :
  let coll := get_client (OsPath.abspath (w_cwd w) directory) in
  let w1 := add_call CallCount
              (set_collections (<[coll := contents_at w coll]> (w_collections w)) w) in
  query_collection directory query_text n_results w
  = if store_count w directory =? 0
    then (SysExit 1, add_stderr "Collection is empty. Run --index first." w1)
    else foldM print_result (query_rows w directory query_text n_results) tt
               (add_call (CallQuery [query_text] n_results) w1).
Proof.
  intros coll w1. unfold query_collection.
  rewrite (bind_ok getcwd _ w w (w_cwd w)) by reflexivity. fold coll.
  erewrite (bind_ok (get_collection coll)) by reflexivity.
  erewrite (bind_ok (collection_count coll)) by reflexivity.
  rewrite contents_at_get_collection. fold w1.
  change (Z.of_nat (size (contents_at w coll))) with (store_count w directory).
  destruct (store_count w directory =? 0); [reflexivity|].
  erewrite (bind_ok (collection_query coll query_text n_results)) by reflexivity.
  unfold query_rows. fold coll. f_equal.
  cbn [w_search add_call set_collections].
  change (contents_at w1 coll)
    with (contents_at (set_collections (<[coll := contents_at w coll]> (w_collections w)) w)
                      coll).
  now rewrite contents_at_get_collection.
Qed.

Lemma print_result_outcome row w :
  print_result tt row w
  = match row.1 !! "path" with
    | Some path => (Ok tt, add_stdouts [row_line row] w)
    | None => (Raised "KeyError: 'path'", w)
    end.
Proof.
  destruct row as [meta dist]. unfold print_result, meta_path, row_line, render.
  cbn [fst snd]. destruct (meta !! "path") as [path|]; reflexivity.
Qed.

Lemma add_stdouts_nil w : add_stdouts [] w = w.
Proof. destruct w. unfold add_stdouts. cbn. now rewrite app_nil_r. Qed.

Lemma add_stdouts_app l1 l2 w : add_stdouts l2 (add_stdouts l1 w) = add_stdouts (l1 ++ l2) w.
Proof. unfold add_stdouts. cbn. now rewrite app_assoc. Qed.

(** The printing loop changes nothing but standard output and never
    exits. *)
Lemma print_results_frame rows :
  ∀ w, ∃ lines,
    (foldM print_result rows tt w).2 = add_stdouts lines w
    ∧ ∀ code, (foldM print_result rows tt w).1 ≠ SysExit code.
Proof.
  induction rows as [|row rows IH]; intros w.
  - exists []. cbn. rewrite add_stdouts_nil. split; [reflexivity | discriminate].
  - cbn [foldM]. unfold bind. rewrite print_result_outcome.
    destruct (row.1 !! "path") as [path|].
    + destruct (IH (add_stdouts [row_line row] w)) as (lines & H1 & H2).
      exists (row_line row :: lines). rewrite H1, add_stdouts_app. auto.
    + exists []. cbn. rewrite add_stdouts_nil. split; [reflexivity | discriminate].
Qed.

(** When every row has a path, every row is printed. *)
Lemma print_results_ok rows :
  Forall (fun row : metadata * PyFloat.float => is_Some (row.1 !! "path")) rows →
  ∀ w, foldM print_result rows tt w = (Ok tt, add_stdouts (map row_line rows) w).
Proof.
  induction 1 as [|row rows [path Hp] _ IH]; intros w.
  - cbn. now rewrite add_stdouts_nil.
  - cbn [foldM map]. unfold bind. rewrite print_result_outcome, Hp.
    rewrite IH, add_stdouts_app. reflexivity.
Qed.

(** C3: when the store's count is zero, the query prints the error that
    tells to index first on standard error, exits with code 1, prints
    nothing on standard output and calls the store only to count; when it
    is not zero, the similarity search is called, with the query text and
    the result limit, and the process does not exit through [sys.exit]. *)
Theorem C3_query_on_empty_collection :
  ∀ w directory query_text n_results,
    let out := query_collection directory query_text n_results w in
    (store_count w directory = 0 →
     out.1 = SysExit 1
     ∧ stderr_since w out.2 = ["Collection is empty. Run --index first."]
     ∧ stdout_since w out.2 = []
     ∧ calls_since w out.2 = [CallCount])
    ∧ (store_count w directory ≠ 0 →
       calls_since w out.2 = [CallCount; CallQuery [query_text] n_results]
       ∧ stderr_since w out.2 = []
       ∧ ∀ code, out.1 ≠ SysExit code).
Proof.
  intros w directory query_text n_results out. subst out.
  rewrite query_collection_unfold. split; intros Hc.
  - rewrite Hc. cbn [Z.eqb fst snd].
    unfold stderr_since, stdout_since, calls_since. cbn.
    rewrite !drop_app_length, drop_all. auto.
  - apply Z.eqb_neq in Hc. rewrite Hc.
    match goal with
    | |- context [foldM print_result ?rows tt ?w0] =>
        destruct (print_results_frame rows w0) as (lines & H1 & H2)
    end.
    rewrite H1. unfold stderr_since, calls_since. cbn.
    rewrite <- app_assoc, drop_app_length, drop_all. auto.
Qed.

Lemma C3_query_on_empty_collection_witness :
  (store_count (world_of sample_tree) "/r" = 0
   ∧ (query_collection "/r" "walker" 5 (world_of sample_tree)).1 = SysExit 1
   ∧ calls_since (world_of sample_tree)
                 (query_collection "/r" "walker" 5 (world_of sample_tree)).2
     = [CallCount])
  ∧ (store_count answering_world "/r" ≠ 0
     ∧ calls_since answering_world (query_collection "/r" "walker" 5 answering_world).2
       = [CallCount; CallQuery ["walker"] 5]).
Proof.
  assert (H0 : store_count (world_of sample_tree) "/r" = 0) by (vm_compute; reflexivity).
  assert (H1 : store_count answering_world "/r" ≠ 0) by (vm_compute; discriminate).
  pose proof (proj1 (C3_query_on_empty_collection (world_of sample_tree) "/r" "walker" 5) H0)
    as (E1 & _ & _ & E2).
  pose proof (proj2 (C3_query_on_empty_collection answering_world "/r" "walker" 5) H1)
    as (E3 & _).
  split; [split; [exact H0 | split; [exact E1 | exact E2]] | split; [exact H1 | exact E3]].
Defined.

(** C10: with [--query] and an empty text on a valid directory, [main]
    takes neither branch: it returns normally and leaves the world as it
    was (no call to the store, nothing opened, nothing printed on either
    stream). *)
Theorem C10_empty_query_does_nothing :
  ∀ args w d,
    a_index args = false →
    a_query args = Some "" →
    w_fs w (OsPath.abspath (w_cwd w) (a_directory args)) = Some d →
    main args w = (Ok tt, w).
Proof.
  intros args w d Hi Hq Hd. unfold main.
  rewrite (bind_ok getcwd _ w w (w_cwd w)) by reflexivity.
  erewrite (bind_ok (isdir _)) by reflexivity.
  rewrite Hd. cbn [negb]. rewrite (bind_ok (ret tt) _ w w tt) by reflexivity.
  rewrite Hi, Hq. reflexivity.
Qed.

Lemma C10_empty_query_does_nothing_witness :
  main {| a_directory := "/r"; a_index := false; a_query := Some "";
          a_num_results := 5; a_verbose := false |} (world_of sample_tree)
  = (Ok tt, world_of sample_tree).
Proof.
  exact (C10_empty_query_does_nothing
           {| a_directory := "/r"; a_index := false; a_query := Some "";
              a_num_results := 5; a_verbose := false |}
           (world_of sample_tree) sample_tree eq_refl eq_refl eq_refl).
Defined.

(** ** Rendering of scores *)

Lemma digit_is_digit (d : Z) : 0 <= d < 10 → is_digit (PyInt.digit d).
Proof.
  intros Hd. unfold is_digit, PyInt.digit.
  rewrite nat_ascii_embedding by lia. lia.
Qed.

Lemma all_digits_cons (a : ascii) (s : string) :
  is_digit a → all_digits s → all_digits (String a s).
Proof. intros Ha Hs. unfold all_digits. cbn. now constructor. Qed.

Lemma dec_loop_digits fuel :
  ∀ n acc, all_digits acc → all_digits (PyInt.dec_loop fuel n acc).
Proof.
  induction fuel as [|fuel IH]; intros n acc Hacc; [exact Hacc|].
  cbn [PyInt.dec_loop].
  assert (Hd : all_digits (String (PyInt.digit (n mod 10)) acc)).
  { apply all_digits_cons; [|exact Hacc]. apply digit_is_digit.
    apply Z.mod_pos_bound. lia. }
  destruct (n <? 10); [exact Hd | now apply IH].
Qed.

Lemma cons_nonempty (a : ascii) (s : string) : String a s ≠ "".
Proof. intros H. inversion H. Qed.

Lemma dec_loop_nonempty fuel :
  ∀ n acc, acc ≠ "" → PyInt.dec_loop fuel n acc ≠ "".
Proof.
  induction fuel as [|fuel IH]; intros n acc Hacc; [exact Hacc|].
  cbn [PyInt.dec_loop]. destruct (n <? 10); [apply cons_nonempty|].
  apply IH, cons_nonempty.
Qed.

Lemma dec_shape (n : Z) : PyInt.dec n ≠ "" ∧ all_digits (PyInt.dec n).
Proof.
  unfold PyInt.dec. split.
  - cbn [PyInt.dec_loop]. destruct (n <? 10); [apply cons_nonempty|].
    apply dec_loop_nonempty, cons_nonempty.
  - apply dec_loop_digits. constructor.
Qed.

Lemma frac_digits_shape k :
  ∀ x acc, all_digits acc →
           all_digits (PyFloat.frac_digits k x acc)
           ∧ String.length (PyFloat.frac_digits k x acc) = (k + String.length acc)%nat.
Proof.
  induction k as [|k IH]; intros x acc Hacc; [split; [exact Hacc | reflexivity]|].
  cbn [PyFloat.frac_digits].
  destruct (IH (x / 10) (String (PyInt.digit (x mod 10)) acc)) as [H1 H2].
  { apply all_digits_cons; [|exact Hacc]. apply digit_is_digit.
    apply Z.mod_pos_bound. lia. }
  split; [exact H1|]. rewrite H2. cbn [String.length]. lia.
Qed.

Lemma fixed4_shape (sign : string) (x : Z) :
  sign = "+" ∨ sign = "-" → signed_4_decimals (sign +:+ PyFloat.fixed4 x).
Proof.
  intros Hs. unfold signed_4_decimals, PyFloat.fixed4.
  exists sign, (PyInt.dec (x / 10000)), (PyFloat.frac_digits 4 (x mod 10000) "").
  destruct (dec_shape (x / 10000)) as [Hn Hd].
  destruct (frac_digits_shape 4 (x mod 10000) "") as [Hf Hl]; [constructor|].
  repeat split; assumption.
Qed.

Lemma format_shape (x : PyFloat.float) :
  is_number x = true → signed_4_decimals (PyFloat.format_plus_4f x).
Proof.
  destruct x as [s|s| |s m e]; try discriminate; intros _;
    cbn [PyFloat.format_plus_4f]; apply fixed4_shape;
    destruct s; cbn; auto.
Qed.

(** C7: when the store is not empty and every returned row has a path,
    the query returns normally and prints exactly one line per row, in the
    order returned: the score [1 - distance] in the format [+.4f], two
    spaces, and the path; for a score that is a number the formatted score
    is a sign, digits, a point and exactly four digits; and the distance
    0.2 gives the score +0.8000. *)
Theorem C7_results_rendering :
  ∀ w directory query_text n_results,
    let rows := query_rows w directory query_text n_results in
    let out := query_collection directory query_text n_results w in
    store_count w directory ≠ 0 →
    Forall (fun row : metadata * PyFloat.float => is_Some (row.1 !! "path")) rows →
    out.1 = Ok tt
    ∧ stdout_since w out.2
      = map (fun row =>
               PyFloat.format_plus_4f (PyFloat.sub (PyFloat.of_int 1) row.2)
               +:+ "  " +:+ default "" (row.1 !! "path")) rows
    ∧ Forall (fun row : metadata * PyFloat.float =>
                is_number (PyFloat.sub (PyFloat.of_int 1) row.2) = true →
                signed_4_decimals
                  (PyFloat.format_plus_4f (PyFloat.sub (PyFloat.of_int 1) row.2))) rows
    ∧ PyFloat.format_plus_4f (PyFloat.sub (PyFloat.of_int 1) float_0_2) = "+0.8000".
Proof.
  intros w directory query_text n_results rows out Hc Hp. subst out.
  rewrite query_collection_unfold. apply Z.eqb_neq in Hc. rewrite Hc.
  fold rows. rewrite (print_results_ok rows Hp). cbn [fst snd].
  split; [reflexivity|]. split.
  - unfold stdout_since, add_stdouts. cbn [w_stdout add_call set_collections].
    rewrite drop_app_length. reflexivity.
  - split; [|vm_compute; reflexivity].
    apply List.Forall_forall. intros row _. apply format_shape.
Qed.

Lemma C7_results_rendering_witness :
  store_count answering_world "/r" ≠ 0
  ∧ (query_collection "/r" "walker" 5 answering_world).1 = Ok tt
  ∧ stdout_since answering_world (query_collection "/r" "walker" 5 answering_world).2
    = ["+0.8000  a.txt"].
Proof.
  assert (H1 : store_count answering_world "/r" ≠ 0) by (vm_compute; discriminate).
  assert (H2 : Forall (fun row : metadata * PyFloat.float => is_Some (row.1 !! "path"))
                      (query_rows answering_world "/r" "walker" 5)).
  { repeat constructor. exists "a.txt". reflexivity. }
  pose proof (C7_results_rendering answering_world "/r" "walker" 5 H1 H2) as (E1 & E2 & _).
  split; [exact H1 | split; [exact E1|]]. rewrite E2. reflexivity.
Defined.

(** * Further properties of the program *)

(** ** The store after an indexing run *)

Lemma upsert_records_insert_all b c :
  upsert_records (map stored_id b) (map stored_document b) (map stored_metadata b) c
  = insert_all b c.
Proof.
  revert c. induction b as [|r b IH]; intros c; [reflexivity|].
  cbn [map upsert_records insert_all fold_left]. apply IH.
Qed.

Lemma insert_all_app l1 l2 c : insert_all (l1 ++ l2) c = insert_all l2 (insert_all l1 c).
Proof. unfold insert_all. apply fold_left_app. Qed.

Lemma apply_upserts_insert_all collection bs :
  ∀ c cols,
    apply_upserts collection bs (<[collection := c]> cols)
    = <[collection := insert_all (concat bs) c]> cols.
Proof.
  induction bs as [|b bs IH]; intros c cols; [reflexivity|].
  unfold apply_upserts. cbn [fold_left concat].
  rewrite lookup_insert_eq. cbn [default]. rewrite insert_insert_eq.
  rewrite upsert_records_insert_all, insert_all_app. apply IH.
Qed.

Lemma index_outcome_collections w directory verbose :
  w_collections (index_outcome w directory verbose)
  = <[run_collection w directory :=
        insert_all (run_records w directory) (contents_at w (run_collection w directory))]>
      (w_collections w).
Proof.
  unfold index_outcome. cbn [w_collections add_stdout add_call world_after set_collections].
  rewrite apply_upserts_insert_all, concat_chunks by lia. reflexivity.
Qed.

Lemma index_outcome_contents w directory verbose :
  contents_at (index_outcome w directory verbose) (run_collection w directory)
  = insert_all (run_records w directory) (contents_at w (run_collection w directory)).
Proof.
  unfold contents_at at 1. rewrite index_outcome_collections, lookup_insert_eq. reflexivity.
Qed.

Lemma insert_all_other recs :
  ∀ c k, k ∉ map stored_id recs → insert_all recs c !! k = c !! k.
Proof.
  induction recs as [|r recs IH]; intros c k Hk; [reflexivity|].
  cbn [insert_all fold_left map] in *. apply not_elem_of_cons in Hk as [Hne Hk].
  change (insert_all recs (<[stored_id r := as_record r]> c) !! k = c !! k).
  rewrite IH by assumption. now rewrite lookup_insert_ne.
Qed.

Lemma insert_all_present recs :
  ∀ c r, r ∈ recs →
         ∃ r', r' ∈ recs ∧ stored_id r' = stored_id r
               ∧ insert_all recs c !! stored_id r = Some (as_record r').
Proof.
  induction recs as [|x recs IH] using rev_ind; intros c r Hr.
  - now apply elem_of_nil in Hr.
  - rewrite insert_all_app. cbn [insert_all fold_left].
    destruct (decide (stored_id x = stored_id r)) as [E | E].
    + exists x. rewrite <- E, lookup_insert_eq.
      split; [apply elem_of_app; right; now left | auto].
    + apply elem_of_app in Hr as [Hr | Hr].
      * destruct (IH c r Hr) as (r' & Hin & Hid & Hl). exists r'.
        rewrite lookup_insert_ne by assumption.
        split; [apply elem_of_app; now left | auto].
      * apply list_elem_of_singleton in Hr. subst. contradiction.
Qed.

Lemma insert_all_agree recs :
  ∀ c c', (∀ k, k ∉ map stored_id recs → c !! k = c' !! k) →
          insert_all recs c = insert_all recs c'.
Proof.
  induction recs as [|r recs IH]; intros c c' H.
  - apply map_eq. intros k. apply H. apply not_elem_of_nil.
  - cbn [insert_all fold_left]. apply IH. intros k Hk.
    destruct (decide (stored_id r = k)) as [<- | Hne].
    + now rewrite !lookup_insert_eq.
    + rewrite !lookup_insert_ne by assumption. apply H.
      cbn [map]. apply not_elem_of_cons. auto.
Qed.

Lemma insert_all_twice recs c : insert_all recs (insert_all recs c) = insert_all recs c.
Proof. apply insert_all_agree. intros k Hk. now apply insert_all_other. Qed.

Lemma insert_all_size recs :
  ∀ c, (size c ≤ size (insert_all recs c) ≤ size c + length recs)%nat.
Proof.
  induction recs as [|r recs IH]; intros c; [cbn; lia|].
  cbn [insert_all fold_left length].
  specialize (IH (<[stored_id r := as_record r]> c)).
  change (fold_left _ recs ?m) with (insert_all recs m).
  rewrite map_size_insert in IH. destruct (c !! stored_id r); cbn in IH; lia.
Qed.

Lemma index_outcome_same_place w directory verbose :
  w_cwd (index_outcome w directory verbose) = w_cwd w
  ∧ w_fs (index_outcome w directory verbose) = w_fs w.
Proof. split; reflexivity. Qed.

(** X1: indexing the same tree again leaves the store as the first run left
    it and reports the same count: re-indexing is idempotent. *)
Theorem reindex_is_idempotent :
  ∀ w directory verbose verbose',
    let w1 := (walk_and_index directory verbose w).2 in
    let w2 := (walk_and_index directory verbose' w1).2 in
    w_collections w2 = w_collections w1
    ∧ store_count w2 directory = store_count w1 directory.
Proof.
  intros w directory verbose verbose' w1 w2.
  assert (E : w_collections w2 = w_collections w1).
  { subst w2 w1. rewrite !walk_and_index_spec. cbn [snd].
    rewrite (index_outcome_collections (index_outcome w directory verbose)).
    assert (Hc : run_collection (index_outcome w directory verbose) directory
                 = run_collection w directory) by reflexivity.
    assert (Hr : run_records (index_outcome w directory verbose) directory
                 = run_records w directory) by reflexivity.
    rewrite Hc, Hr, index_outcome_contents, insert_all_twice.
    rewrite index_outcome_collections. apply insert_insert_eq. }
  split; [exact E|].
  unfold store_count, contents_at. rewrite E.
  assert (Hcwd : w_cwd w2 = w_cwd w1).
  { subst w2. rewrite walk_and_index_spec. reflexivity. }
  now rewrite Hcwd.
Qed.

(** X2: after an indexing run every record handed to the store is found
    under its id, holding the metadata of a file of that run with the same
    id (the last one upserted wins), while every record whose id was not
    upserted is exactly as it was: nothing is ever deleted, so records of
    files that no longer exist stay in the store. *)
Theorem index_keeps_stale_records :
  ∀ w directory verbose,
    let w' := (walk_and_index directory verbose w).2 in
    let coll := run_collection w directory in
    (∀ r, r ∈ upserted (calls_since w w') →
          ∃ r', r' ∈ upserted (calls_since w w')
                ∧ stored_id r' = stored_id r
                ∧ contents_at w' coll !! stored_id r = Some (as_record r'))
    ∧ (∀ k, k ∉ map stored_id (upserted (calls_since w w')) →
            contents_at w' coll !! k = contents_at w coll !! k).
Proof.
  intros w directory verbose w' coll. subst w' coll.
  rewrite walk_and_index_spec. cbn [snd].
  rewrite index_outcome_upserted, index_outcome_contents.
  split.
  - intros r Hr. now apply insert_all_present.
  - intros k Hk. now apply insert_all_other.
Qed.

Lemma index_outcome_count w directory verbose :
  store_count (index_outcome w directory verbose) directory
  = Z.of_nat (size (insert_all (run_records w directory)
                               (contents_at w (run_collection w directory)))).
Proof.
  unfold store_count. change (w_cwd (index_outcome w directory verbose)) with (w_cwd w).
  fold (run_collection w directory). now rewrite index_outcome_contents.
Qed.

Lemma index_outcome_last_line w directory verbose :
  last (w_stdout (index_outcome w directory verbose))
  = Some (summary_line (store_count (index_outcome w directory verbose) directory)).
Proof.
  rewrite index_outcome_count. unfold index_outcome, add_stdout. cbn [w_stdout].
  rewrite last_snoc. do 3 f_equal.
  unfold contents_at. cbn [w_collections add_call world_after set_collections].
  fold (run_collection w directory).
  rewrite apply_upserts_insert_all, concat_chunks by lia.
  rewrite lookup_insert_eq. reflexivity.
Qed.

(** X3: the count reported on the last line is the number of records in
    the store after the run; it is never smaller than before the run and
    exceeds it by at most the number of qualifying files. *)
Theorem index_count_bounds :
  ∀ w directory verbose,
    let w' := (walk_and_index directory verbose w).2 in
    last (w_stdout w') = Some (summary_line (store_count w' directory))
    ∧ store_count w directory <= store_count w' directory
    ∧ store_count w' directory
      <= store_count w directory
         + Z.of_nat (length (List.filter qualifies (run_visits w directory))).
Proof.
  intros w directory verbose w'. subst w'. rewrite walk_and_index_spec. cbn [snd].
  split; [apply index_outcome_last_line|].
  rewrite index_outcome_count. unfold store_count. fold (run_collection w directory).
  pose proof (insert_all_size (run_records w directory)
                (contents_at w (run_collection w directory))) as [H1 H2].
  unfold run_records in H2 at 2. rewrite emitted_length in H2. lia.
Qed.




(** X5: the verbose flag changes standard output only: the calls to the
    store, the store's contents, the files opened and the result are the
    same with and without it. *)
Theorem verbose_changes_only_stdout :
  ∀ w directory,
    let quiet := walk_and_index directory false w in
    let loud := walk_and_index directory true w in
    loud.1 = quiet.1
    ∧ w_calls loud.2 = w_calls quiet.2
    ∧ w_collections loud.2 = w_collections quiet.2
    ∧ w_opened loud.2 = w_opened quiet.2
    ∧ w_stderr loud.2 = w_stderr quiet.2
    ∧ (length (w_stdout loud.2)
       = length (w_stdout quiet.2) + length (run_visits w directory))%nat.
Proof.
  intros w directory quiet loud. subst quiet loud. rewrite !walk_and_index_spec.
  cbn [fst snd].
  repeat match goal with |- _ ∧ _ => split end; try reflexivity.
  unfold index_outcome, add_stdout, add_call, world_after, set_collections.
  cbn [w_stdout log_lines]. rewrite !length_app, length_map. cbn [length]. lia.
Qed.

(** ** The upsert calls *)

Lemma elem_of_chunk {A} (n : nat) (l b : list A) (x : A) :
  (0 < n)%nat → b ∈ chunks n l → x ∈ b → x ∈ l.
Proof.
  intros Hn Hb Hx. rewrite <- (concat_chunks n l Hn).
  apply list_elem_of_In, in_concat. exists b.
  split; now apply list_elem_of_In.
Qed.

(** X6: every upsert call of an indexing run carries three lists of the
    same length, between 1 and 50 entries, and entry by entry the metadata
    is the single key "path" and the id is the SHA-256 hex digest of that
    path: the three parallel buffers never get out of step. *)
Theorem upsert_calls_are_aligned :
  ∀ w directory verbose c,
    c ∈ calls_since w (walk_and_index directory verbose w).2 →
    c = CallCount
    ∨ ∃ ids documents metadatas,
        c = CallUpsert ids documents metadatas
        ∧ length ids = length documents
        ∧ length documents = length metadatas
        ∧ (1 ≤ length ids ≤ 50)%nat
        ∧ Forall2 (fun id meta => ∃ path, meta = {[ "path" := path ]}
                                          ∧ id = Sha256.hexdigest path)
                  ids metadatas.
Proof.
  intros w directory verbose c Hc.
  rewrite walk_and_index_spec in Hc. cbn [snd] in Hc.
  rewrite index_outcome_calls in Hc. apply elem_of_app in Hc as [Hc | Hc].
  - right. apply list_elem_of_fmap in Hc as (b & -> & Hb).
    exists (map stored_id b), (map stored_document b), (map stored_metadata b).
    split; [reflexivity|]. rewrite !length_map. split; [reflexivity|].
    split; [reflexivity|]. split.
    + apply list_elem_of_lookup in Hb as [i Hi].
      now destruct (chunks_sizes 50 _ ltac:(lia) i b Hi).
    + apply Forall2_fmap, Forall_Forall2_diag, List.Forall_forall. intros r Hr.
      apply list_elem_of_In in Hr.
      pose proof (elem_of_chunk 50 _ b r ltac:(lia) Hb Hr) as Hin.
      apply emitted_elem in Hin as (v & _ & Hrec).
      apply record_of_Some in Hrec as (_ & content & _ & ->).
      eexists. split; reflexivity.
  - left. now apply list_elem_of_singleton in Hc.
Qed.

Lemma upsert_calls_are_aligned_witness :
  ∃ ids documents metadatas,
    CallUpsert ids documents metadatas
    ∈ calls_since (world_of sample_tree) (walk_and_index "/r" false (world_of sample_tree)).2
    ∧ length ids = length metadatas.
Proof.
  assert (H : batch_call (run_records (world_of sample_tree) "/r")
              ∈ calls_since (world_of sample_tree)
                            (walk_and_index "/r" false (world_of sample_tree)).2).
  { apply list_elem_of_In. vm_compute. left. reflexivity. }
  destruct (upsert_calls_are_aligned _ _ _ _ H) as [E | (i & d & m & E & L1 & L2 & _)].
  - discriminate E.
  - exists i, d, m. rewrite <- E. split; [exact H | congruence].
Defined.

(** ** Runs with nothing to index, and queries after a run *)

Lemma emitted_nil_iff cwd directory vs :
  emitted cwd directory vs = [] ↔ List.filter qualifies vs = [].
Proof.
  pose proof (emitted_length cwd directory vs) as H.
  split; intros E; rewrite E in H; cbn in H.
  - symmetry in H. now apply length_zero_iff_nil in H.
  - now apply length_zero_iff_nil in H.
Qed.

(** X7: when no visited file qualifies (the directory is missing or empty,
    or every file is filtered out), the run makes no upsert call at all, not
    even an empty one; it only counts, reports the count the store had
    before, and leaves every record as it was. *)
Theorem nothing_to_index :
  ∀ w directory verbose,
    List.filter qualifies (run_visits w directory) = [] →
    let w' := (walk_and_index directory verbose w).2 in
    calls_since w w' = [CallCount]
    ∧ last (w_stdout w') = Some (summary_line (store_count w directory))
    ∧ ∀ db, contents_at w' db = contents_at w db.
Proof.
  intros w directory verbose Hq w'. subst w'. rewrite walk_and_index_spec. cbn [snd].
  apply (emitted_nil_iff (w_cwd w) (OsPath.abspath (w_cwd w) directory)) in Hq.
  assert (Hc : ∀ db, contents_at (index_outcome w directory verbose) db = contents_at w db).
  { intros db. unfold contents_at at 1. rewrite index_outcome_collections.
    unfold run_records. rewrite Hq. cbn [insert_all fold_left].
    destruct (decide (run_collection w directory = db)) as [<- | Hne].
    - now rewrite lookup_insert_eq.
    - now rewrite lookup_insert_ne. }
  split; [|split; [|exact Hc]].
  - rewrite index_outcome_calls, Hq. reflexivity.
  - rewrite index_outcome_last_line. do 2 f_equal. unfold store_count.
    change (w_cwd (index_outcome w directory verbose)) with (w_cwd w).
    now rewrite Hc.
Qed.

Lemma nothing_to_index_witness :
  calls_since (world_of two_skipped) (walk_and_index "/r" true (world_of two_skipped)).2
  = [CallCount]
  ∧ calls_since (world_of sample_tree)
                (walk_and_index "/missing" true (world_of sample_tree)).2
    = [CallCount].
Proof.
  split.
  - refine (proj1 (nothing_to_index (world_of two_skipped) "/r" true _)).
    vm_compute. reflexivity.
  - refine (proj1 (nothing_to_index (world_of sample_tree) "/missing" true _)).
    vm_compute. reflexivity.
Defined.

Lemma query_dispatched_calls w directory query_text n_results :
  store_count w directory ≠ 0 →
  calls_since w (query_collection directory query_text n_results w).2
  = [CallCount; CallQuery [query_text] n_results].
Proof.
  intros Hc. rewrite query_collection_unfold. apply Z.eqb_neq in Hc. rewrite Hc.
  match goal with
  | |- context [foldM print_result ?rows tt ?w0] =>
      destruct (print_results_frame rows w0) as (lines & H1 & _)
  end.
  rewrite H1. unfold calls_since. cbn.
  rewrite <- app_assoc, drop_app_length. reflexivity.
Qed.

(** X8: after an indexing run that found at least one qualifying file the
    store is not empty, so a query on the same directory is dispatched to
    the similarity search instead of ending on the empty-collection
    error. *)
Theorem query_after_index_is_dispatched :
  ∀ w directory verbose query_text n_results,
    List.filter qualifies (run_visits w directory) ≠ [] →
    let w1 := (walk_and_index directory verbose w).2 in
    store_count w1 directory ≠ 0
    ∧ calls_since w1 (query_collection directory query_text n_results w1).2
      = [CallCount; CallQuery [query_text] n_results].
Proof.
  intros w directory verbose query_text n_results Hq w1.
  assert (Hc : store_count w1 directory ≠ 0).
  { subst w1. rewrite walk_and_index_spec. cbn [snd]. unfold store_count.
    change (w_cwd (index_outcome w directory verbose)) with (w_cwd w).
    fold (run_collection w directory). rewrite index_outcome_contents.
    destruct (run_records w directory) as [|r recs] eqn:E.
    - exfalso. apply Hq. now apply (emitted_nil_iff (w_cwd w)
                                     (OsPath.abspath (w_cwd w) directory)).
    - destruct (insert_all_present (r :: recs)
                  (contents_at w (run_collection w directory)) r)
        as (r' & _ & _ & Hl); [now left|].
      intros H0. apply Nat2Z.inj_iff with (m := 0%nat) in H0.
      apply (map_size_ne_0_lookup_2 _ _ (mk_is_Some _ _ Hl)), H0. }
  split; [exact Hc|].
  now apply query_dispatched_calls.
Qed.

Lemma query_after_index_is_dispatched_witness :
  let w1 := (walk_and_index "/r" false (world_of sample_tree)).2 in
  store_count w1 "/r" ≠ 0
  ∧ calls_since w1 (query_collection "/r" "walker" 5 w1).2
    = [CallCount; CallQuery ["walker"] 5].
Proof.
  refine (query_after_index_is_dispatched (world_of sample_tree) "/r" false "walker" 5 _).
  vm_compute. discriminate.
Defined.

(** ** What a query leaves alone *)

Lemma query_collection_world w directory query_text n_results :
  ∃ calls errs lines,
    (query_collection directory query_text n_results w).2
    = {| w_cwd := w_cwd w; w_fs := w_fs w;
         w_collections :=
           <[run_collection w directory := contents_at w (run_collection w directory)]>
             (w_collections w);
         w_search := w_search w;
         w_calls := w_calls w ++ calls;
         w_opened := w_opened w;
         w_stdout := w_stdout w ++ lines;
         w_stderr := w_stderr w ++ errs |}
    ∧ ∀ c, c ∈ calls → c = CallCount ∨ c = CallQuery [query_text] n_results.
Proof.
  rewrite query_collection_unfold. cbn zeta. fold (run_collection w directory).
  destruct (store_count w directory =? 0).
  - exists [CallCount], ["Collection is empty. Run --index first."], [].
    cbn [snd]. unfold add_stderr, add_call, set_collections. cbn.
    rewrite app_nil_r. split; [reflexivity|].
    intros c Hc. apply list_elem_of_singleton in Hc. auto.
  - match goal with
    | |- context [foldM print_result ?rows tt ?w0] =>
        destruct (print_results_frame rows w0) as (lines & H1 & _)
    end.
    exists [CallCount; CallQuery [query_text] n_results], [], lines.
    rewrite H1. unfold add_stdouts, add_call, set_collections. cbn.
    rewrite app_nil_r, <- app_assoc. split; [reflexivity|].
    intros c Hc. apply elem_of_cons in Hc as [-> | Hc]; [auto|].
    apply list_elem_of_singleton in Hc. auto.
Qed.


(** ** Rows without a path, and rows of unequal number *)

Lemma print_results_app rows1 rows2 w :
  Forall (fun row : metadata * PyFloat.float => is_Some (row.1 !! "path")) rows1 →
  foldM print_result (rows1 ++ rows2) tt w
  = foldM print_result rows2 tt (add_stdouts (map row_line rows1) w).
Proof.
  intros H. rewrite foldM_app. unfold bind. rewrite (print_results_ok rows1 H).
  reflexivity.
Qed.

(** X10: when a returned row has no "path" in its metadata, the rows
    before it are printed, then the query ends on an uncaught [KeyError]:
    that row and the rows after it are not printed, and the process does not
    exit through the empty-collection error. *)
Theorem query_row_without_path :
  ∀ w directory query_text n_results before row after,
    store_count w directory ≠ 0 →
    query_rows w directory query_text n_results = before ++ row :: after →
    Forall (fun row : metadata * PyFloat.float => is_Some (row.1 !! "path")) before →
    row.1 !! "path" = None →
    let out := query_collection directory query_text n_results w in
    out.1 = Raised "KeyError: 'path'"
    ∧ stdout_since w out.2 = map row_line before
    ∧ stderr_since w out.2 = [].
Proof.
  intros w directory query_text n_results before row after Hc Hrows Hb Hrow out.
  subst out. rewrite query_collection_unfold. apply Z.eqb_neq in Hc. rewrite Hc.
  rewrite Hrows, (print_results_app before (row :: after) _ Hb).
  cbn [foldM]. unfold bind. rewrite print_result_outcome, Hrow. cbn [fst snd].
  split; [reflexivity|]. unfold stdout_since, stderr_since. cbn.
  now rewrite drop_app_length, drop_all.
Qed.

Lemma query_row_without_path_witness :
  (query_collection "/r" "walker" 5 pathless_world).1 = Raised "KeyError: 'path'"
  ∧ stdout_since pathless_world (query_collection "/r" "walker" 5 pathless_world).2
    = ["+0.8000  a.txt"].
Proof.
  pose proof (query_row_without_path pathless_world "/r" "walker" 5
                [({[ "path" := "a.txt" ]}, float_0_2)] (∅, float_0_2) []) as H.
  destruct H as (H1 & H2 & _).
  - vm_compute. discriminate.
  - reflexivity.
  - repeat constructor. exists "a.txt". reflexivity.
  - reflexivity.
  - split; [exact H1|]. rewrite H2. reflexivity.
Defined.

(** X11: the rows printed are the pairs of [zip]: when the store returns
    metadata and distance lists of different lengths, the surplus of the
    longer one is dropped silently, and the number of lines printed is the
    smaller of the two lengths (the program itself never applies the result
    limit). *)
Theorem query_prints_zipped_rows :
  ∀ w directory query_text n_results,
    let results := w_search w (contents_at w (run_collection w directory))
                            query_text n_results in
    store_count w directory ≠ 0 →
    Forall (fun meta : metadata => is_Some (meta !! "path")) (q_metadatas results) →
    let out := query_collection directory query_text n_results w in
    out.1 = Ok tt
    ∧ length (stdout_since w out.2)
      = Nat.min (length (q_metadatas results)) (length (q_distances results)).
Proof.
  intros w directory query_text n_results results Hc Hm out. subst out.
  rewrite query_collection_unfold. apply Z.eqb_neq in Hc. rewrite Hc.
  assert (Hrows : Forall (fun row : metadata * PyFloat.float => is_Some (row.1 !! "path"))
                         (query_rows w directory query_text n_results)).
  { unfold query_rows. fold (run_collection w directory). fold results.
    apply List.Forall_forall. intros [meta dist] Hin. cbn [fst].
    apply in_combine_l in Hin. rewrite List.Forall_forall in Hm. auto. }
  rewrite (print_results_ok _ Hrows). cbn [fst snd]. split; [reflexivity|].
  unfold stdout_since, add_stdouts. cbn [w_stdout add_call set_collections].
  rewrite drop_app_length, length_map. unfold query_rows.
  fold (run_collection w directory). fold results. apply length_combine.
Qed.

Lemma query_prints_zipped_rows_witness :
  let w := {| w_cwd := w_cwd answering_world; w_fs := w_fs answering_world;
              w_collections := w_collections answering_world;
              w_search := fun _ _ _ =>
                {| q_metadatas := [ {[ "path" := "a.txt" ]}; {[ "path" := "b.txt" ]} ];
                   q_distances := [ float_0_2 ] |};
              w_calls := []; w_opened := []; w_stdout := []; w_stderr := [] |} in
  length (stdout_since w (query_collection "/r" "walker" 7 w).2) = 1%nat.
Proof.
  intros w.
  refine (proj2 (query_prints_zipped_rows w "/r" "walker" 7 _ _)).
  - vm_compute. discriminate.
  - repeat constructor; eexists; reflexivity.
Defined.

Lemma index_keeps_stale_records_witness :
  let w := answering_world in
  let w' := (walk_and_index "/r" false w).2 in
  ("never-indexed" ∉ map stored_id (upserted (calls_since w w')))
  ∧ contents_at w' (run_collection w "/r") !! "never-indexed"
    = contents_at w (run_collection w "/r") !! "never-indexed".
Proof.
  intros w w'.
  assert (H : "never-indexed" ∉ map stored_id (upserted (calls_since w w'))).
  { intros Hin. apply list_elem_of_In in Hin. vm_compute in Hin.
    repeat (destruct Hin as [Hin | Hin]; [discriminate Hin|]). exact Hin. }
  split; [exact H|].
  exact (proj2 (index_keeps_stale_records w "/r" false) "never-indexed" H).
Defined.


(** ** The dispatch in [main] *)

Lemma main_unfold args w :
  main args w
  = match w_fs w (OsPath.abspath (w_cwd w) (a_directory args)) with
    | None =>
        (SysExit 2,
         add_stderr ("error: Not a directory: "
                     +:+ OsPath.abspath (w_cwd w) (a_directory args)) w)
    | Some _ =>
        if a_index args then
          walk_and_index (OsPath.abspath (w_cwd w) (a_directory args)) (a_verbose args)
            (add_stdout ("Indexing " +:+ OsPath.abspath (w_cwd w) (a_directory args)
                         +:+ " ...") w)
        else if truthy (a_query args) then
          query_collection (OsPath.abspath (w_cwd w) (a_directory args))
                           (default "" (a_query args)) (a_num_results args) w
        else (Ok tt, w)
    end.
Proof.
  unfold main.
  rewrite (bind_ok getcwd _ w w (w_cwd w)) by reflexivity.
  erewrite (bind_ok (isdir _)) by reflexivity.
  destruct (w_fs w (OsPath.abspath (w_cwd w) (a_directory args))); cbn [negb].
  - rewrite (bind_ok (ret tt) _ w w tt) by reflexivity.
    destruct (a_index args).
    + erewrite (bind_ok (print _)) by reflexivity. reflexivity.
    + now destruct (truthy (a_query args)).
  - reflexivity.
Qed.

(** X12: when the directory argument is not a directory, [main] stops
    before anything else, in either mode: the message naming the absolute
    path goes to standard error, the exit status is 2, no call reaches the
    store (not even to open the collection), no file is opened and nothing
    is printed on standard output. *)
Theorem main_rejects_missing_directory :
  ∀ args w,
    w_fs w (OsPath.abspath (w_cwd w) (a_directory args)) = None →
    let out := main args w in
    out.1 = SysExit 2
    ∧ stderr_since w out.2
      = ["error: Not a directory: " +:+ OsPath.abspath (w_cwd w) (a_directory args)]
    ∧ w_stdout out.2 = w_stdout w
    ∧ w_calls out.2 = w_calls w
    ∧ w_opened out.2 = w_opened w
    ∧ w_collections out.2 = w_collections w.
Proof.
  intros args w Hd out. subst out. rewrite main_unfold, Hd. cbn [fst snd].
  repeat match goal with |- _ ∧ _ => split end; try reflexivity.
  unfold stderr_since, add_stderr. cbn [w_stderr]. now rewrite drop_app_length.
Qed.

Lemma main_rejects_missing_directory_witness :
  let args := {| a_directory := "../nowhere"; a_index := true; a_query := None;
                 a_num_results := 5; a_verbose := true |} in
  (main args (world_of sample_tree)).1 = SysExit 2
  ∧ stderr_since (world_of sample_tree) (main args (world_of sample_tree)).2
    = ["error: Not a directory: /home/nowhere"].
Proof.
  intros args.
  pose proof (main_rejects_missing_directory args (world_of sample_tree) eq_refl)
    as (H1 & H2 & _).
  split; [exact H1|]. rewrite H2. reflexivity.
Defined.

Lemma index_outcome_stdout_grows w directory verbose :
  ∃ rest, w_stdout (index_outcome w directory verbose) = w_stdout w ++ rest.
Proof.
  eexists. unfold index_outcome, add_stdout, add_call, world_after, set_collections.
  cbn [w_stdout]. rewrite <- app_assoc. reflexivity.
Qed.

(** X13: in index mode on a valid directory [main] announces the absolute
    path on standard output before anything else, then indexes: it returns
    normally, hands to the store the records of the qualifying files of that
    directory and never calls the similarity search, whatever the query
    argument holds. *)
Theorem main_index_mode :
  ∀ args w d,
    let dir := OsPath.abspath (w_cwd w) (a_directory args) in
    a_index args = true →
    w_fs w dir = Some d →
    let out := main args w in
    out.1 = Ok tt
    ∧ (∃ rest, stdout_since w out.2 = ("Indexing " +:+ dir +:+ " ...") :: rest)
    ∧ upserted (calls_since w out.2) = run_records w dir
    ∧ (∀ c texts n, c ∈ calls_since w out.2 → c ≠ CallQuery texts n)
    ∧ w_stderr out.2 = w_stderr w.
Proof.
  intros args w d dir Hi Hd out. subst out. rewrite main_unfold. fold dir.
  rewrite Hd, Hi, walk_and_index_spec. cbn [fst snd].
  set (w0 := add_stdout ("Indexing " +:+ dir +:+ " ...") w).
  assert (Hcalls : calls_since w (index_outcome w0 dir (a_verbose args))
                   = calls_since w0 (index_outcome w0 dir (a_verbose args)))
    by reflexivity.
  split; [reflexivity|]. split; [|split; [|split]].
  - destruct (index_outcome_stdout_grows w0 dir (a_verbose args)) as [rest Hr].
    exists rest. unfold stdout_since. rewrite Hr. unfold w0, add_stdout. cbn [w_stdout].
    rewrite <- app_assoc, drop_app_length. reflexivity.
  - rewrite Hcalls, index_outcome_upserted. reflexivity.
  - intros c texts n Hc. rewrite Hcalls, index_outcome_calls in Hc.
    apply elem_of_app in Hc as [Hc | Hc].
    + apply list_elem_of_fmap in Hc as (b & -> & _). discriminate.
    + apply list_elem_of_singleton in Hc. subst c. discriminate.
  - reflexivity.
Qed.

Lemma main_index_mode_witness :
  let args := {| a_directory := "/r"; a_index := true; a_query := Some "ignored";
                 a_num_results := 5; a_verbose := false |} in
  stdout_since (world_of sample_tree) (main args (world_of sample_tree)).2
  = ["Indexing /r ..."; "Collection 'files' now contains 3 documents."].
Proof.
  intros args.
  pose proof (main_index_mode args (world_of sample_tree) sample_tree eq_refl eq_refl)
    as (_ & (rest & Hr) & _).
  rewrite Hr. f_equal.
  assert (E : stdout_since (world_of sample_tree) (main args (world_of sample_tree)).2
              = ["Indexing /r ..."; "Collection 'files' now contains 3 documents."])
    by (vm_compute; reflexivity).
  rewrite Hr in E. now injection E.
Defined.

(** X14: in query mode with a non-empty text on a valid directory [main]
    is the query on the absolute path with the text and the result limit of
    the arguments: nothing is announced, no file is opened and no upsert is
    made. *)
Theorem main_query_mode :
  ∀ args w d text,
    let dir := OsPath.abspath (w_cwd w) (a_directory args) in
    a_index args = false →
    a_query args = Some text →
    text ≠ "" →
    w_fs w dir = Some d →
    main args w = query_collection dir text (a_num_results args) w
    ∧ w_opened (main args w).2 = w_opened w
    ∧ (∀ c, c ∈ calls_since w (main args w).2 →
            c = CallCount ∨ c = CallQuery [text] (a_num_results args)).
Proof.
  intros args w d text dir Hi Hq Ht Hd.
  assert (E : main args w = query_collection dir text (a_num_results args) w).
  { rewrite main_unfold. fold dir. rewrite Hd, Hi, Hq.
    destruct text as [|c text]; [contradiction | reflexivity]. }
  rewrite E. split; [reflexivity|].
  pose proof (query_collection_world w dir text (a_num_results args))
    as (calls & errs & lines & Hw & Hcalls).
  rewrite Hw. split; [reflexivity|].
  unfold calls_since. cbn [w_calls]. rewrite drop_app_length. exact Hcalls.
Qed.

Lemma main_query_mode_witness :
  let args := {| a_directory := "/r"; a_index := false; a_query := Some "walker";
                 a_num_results := 3; a_verbose := false |} in
  main args answering_world = query_collection "/r" "walker" 3 answering_world.
Proof.
  intros args.
  refine (proj1 (main_query_mode args answering_world sample_tree "walker"
                                 eq_refl eq_refl _ eq_refl)).
  discriminate.
Defined.

(** ** The shape of an id *)

Lemma be_bytes_shape (n : nat) (x : Z) :
  length (Sha256.be_bytes n x) = n
  ∧ Forall (fun b => 0 <= b < 256) (Sha256.be_bytes n x).
Proof.
  unfold Sha256.be_bytes. split.
  - now rewrite length_map, length_rev, length_seq.
  - apply List.Forall_forall. intros b Hb. apply in_map_iff in Hb as (i & <- & _).
    change 255 with (Z.ones 8). rewrite Z.land_ones by lia.
    apply Z.mod_pos_bound. lia.
Qed.

Lemma blocks_length (n : nat) :
  ∀ ws h, length h = 8%nat → length (Sha256.blocks n ws h) = 8%nat.
Proof.
  induction n as [|n IH]; intros ws h Hh; [exact Hh|].
  cbn [Sha256.blocks]. apply IH. reflexivity.
Qed.

Lemma digest_shape (msg : list Z) :
  length (Sha256.digest msg) = 32%nat
  ∧ Forall (fun b => 0 <= b < 256) (Sha256.digest msg).
Proof.
  unfold Sha256.digest.
  set (ws := Sha256.words _ _).
  pose proof (blocks_length (length ws / 16) ws Sha256.H0 ltac:(vm_compute; reflexivity))
    as Hl.
  generalize dependent (Sha256.blocks (length ws / 16) ws Sha256.H0).
  intros l Hl. clear ws. split.
  - assert (G : ∀ l : list Z, length (flat_map (Sha256.be_bytes 4) l) = (4 * length l)%nat).
    { induction l0 as [|x l0 IH]; [reflexivity|].
      cbn [flat_map]. rewrite length_app, IH, (proj1 (be_bytes_shape 4 x)).
      cbn [length]. lia. }
    rewrite G, Hl. reflexivity.
  - apply List.Forall_forall. intros b Hb. apply in_flat_map in Hb as (x & _ & Hb).
    pose proof (proj2 (be_bytes_shape 4 x)) as Hf. rewrite List.Forall_forall in Hf. auto.
Qed.

Lemma hex_digit_shape (d : Z) : 0 <= d < 16 → is_lower_hex (PyInt.hex_digit d).
Proof.
  intros Hd. unfold is_lower_hex, PyInt.hex_digit.
  destruct (d <? 10) eqn:E.
  - apply Z.ltb_lt in E. rewrite nat_ascii_embedding by lia. left. lia.
  - apply Z.ltb_ge in E. rewrite nat_ascii_embedding by lia. right. lia.
Qed.

Lemma hex_bytes_shape (bs : list Z) :
  Forall (fun b => 0 <= b < 256) bs →
  String.length (fold_right PyInt.hex_byte "" bs) = (2 * length bs)%nat
  ∧ Forall is_lower_hex (String.list_ascii_of_string (fold_right PyInt.hex_byte "" bs)).
Proof.
  induction 1 as [|b bs Hb _ [IH1 IH2]]; [split; [reflexivity | constructor]|].
  cbn [fold_right]. unfold PyInt.hex_byte at 1 3.
  cbn [String.length String.list_ascii_of_string]. split.
  - rewrite IH1. cbn [length]. lia.
  - constructor; [|constructor; [|exact IH2]].
    + apply hex_digit_shape. rewrite Z.shiftr_div_pow2 by lia.
      split; [apply Z.div_pos; lia | apply Z.div_lt_upper_bound; lia].
    + apply hex_digit_shape. change 15 with (Z.ones 4). rewrite Z.land_ones by lia.
      apply Z.mod_pos_bound. lia.
Qed.

(** X15: the id of any path is a string of exactly 64 lower-case
    hexadecimal digits, whatever the length or the bytes of the path (the
    empty path included). *)
Theorem file_id_is_64_hex_digits :
  ∀ filepath,
    String.length (_file_id filepath) = 64%nat
    ∧ Forall is_lower_hex (String.list_ascii_of_string (_file_id filepath)).
Proof.
  intros filepath. unfold _file_id, Sha256.hexdigest.
  destruct (digest_shape (Sha256.bytes_of filepath)) as [Hl Hb].
  destruct (hex_bytes_shape _ Hb) as [H1 H2].
  split; [|exact H2]. rewrite H1, Hl. reflexivity.
Qed.

(** ** Paths of the visited files *)

Lemma valid_name_inv s :
  valid_name s = true →
  has_slash s = false ∧ s ≠ "" ∧ s ≠ "." ∧ s ≠ "..".
Proof.
  unfold valid_name. rewrite !andb_true_iff, !negb_true_iff.
  intros [[[H1 H2] H3] H4].
  apply String.eqb_neq in H2, H3, H4. auto.
Qed.

Lemma split_no_slash s : has_slash s = false → PyStr.split "/" s = [s].
Proof.
  induction s as [|a s IH]; [reflexivity|].
  cbn [has_slash PyStr.split]. intros H. apply orb_false_iff in H as [Ha Hs].
  rewrite Ha, (IH Hs). reflexivity.
Qed.

Lemma split_app_sep a b :
  has_slash a = false → PyStr.split "/" (a +:+ "/" +:+ b) = a :: PyStr.split "/" b.
Proof.
  induction a as [|x a IH]; intros H.
  - reflexivity.
  - cbn [has_slash] in H. apply orb_false_iff in H as [Hx Ha].
    rewrite append_cons. cbn [PyStr.split]. rewrite Hx, (IH Ha). reflexivity.
Qed.

Lemma split_join cs :
  cs ≠ [] → Forall (fun c => has_slash c = false) cs →
  PyStr.split "/" (PyStr.join "/" cs) = cs.
Proof.
  induction cs as [|x [|y cs] IH]; intros Hne Hf; [congruence| |].
  - cbn [PyStr.join]. apply split_no_slash. now inversion Hf.
  - change (PyStr.join "/" (x :: y :: cs)) with (x +:+ "/" +:+ PyStr.join "/" (y :: cs)).
    inversion Hf as [|? ? Hx Hrest]; subst.
    rewrite split_app_sep by assumption. f_equal. apply IH; [discriminate | assumption].
Qed.

Lemma join_snoc cs b :
  cs ≠ [] → PyStr.join "/" (cs ++ [b]) = PyStr.join "/" cs +:+ "/" +:+ b.
Proof.
  induction cs as [|x [|y cs] IH]; intros Hne; [congruence|reflexivity|].
  change (PyStr.join "/" ((x :: y :: cs) ++ [b]))
    with (x +:+ "/" +:+ PyStr.join "/" ((y :: cs) ++ [b])).
  rewrite IH by discriminate.
  change (PyStr.join "/" (x :: y :: cs)) with (x +:+ "/" +:+ PyStr.join "/" (y :: cs)).
  now rewrite !append_assoc.
Qed.

Lemma endswith_no_slash s : has_slash s = false → PyStr.endswith_char s "/" = false.
Proof.
  induction s as [|a s IH]; [reflexivity|].
  cbn [has_slash]. intros H. apply orb_false_iff in H as [Ha Hs].
  cbn [PyStr.endswith_char]. destruct s; [exact Ha | now apply IH].
Qed.

Lemma endswith_app a s :
  s ≠ "" → PyStr.endswith_char (a +:+ s) "/" = PyStr.endswith_char s "/".
Proof.
  intros Hs. induction a as [|x a IH]; [reflexivity|].
  rewrite append_cons. cbn [PyStr.endswith_char].
  destruct (a +:+ s) eqn:E; [|exact IH].
  destruct a; [now rewrite append_empty_l in E | rewrite append_cons in E; discriminate].
Qed.

Lemma startswith_slash_cons a s :
  PyStr.startswith (String a s) "/" = Ascii.eqb a "/".
Proof.
  unfold PyStr.startswith. cbn [String.prefix].
  destruct (ascii_dec "/" a) as [<- | Hn].
  - now destruct s.
  - symmetry. apply Ascii.eqb_neq. congruence.
Qed.

Lemma join_valid_shape cs :
  cs ≠ [] → Forall (fun c => valid_name c = true) cs →
  PyStr.join "/" cs ≠ ""
  ∧ PyStr.endswith_char (PyStr.join "/" cs) "/" = false
  ∧ PyStr.startswith (PyStr.join "/" cs) "/" = false.
Proof.
  induction cs as [|x [|y cs] IH]; intros Hne Hf; [congruence| |].
  - inversion Hf as [|? ? Hx _]; subst. apply valid_name_inv in Hx as (Hs & He & _).
    cbn [PyStr.join]. split; [exact He|]. split; [now apply endswith_no_slash|].
    destruct x as [|a x]; [congruence|]. cbn [has_slash] in Hs.
    apply orb_false_iff in Hs as [Ha _]. now rewrite startswith_slash_cons.
  - inversion Hf as [|? ? Hx Hrest]; subst.
    destruct (IH ltac:(discriminate) Hrest) as (Hn & He & _).
    apply valid_name_inv in Hx as (Hs & Hxe & _).
    change (PyStr.join "/" (x :: y :: cs)) with (x +:+ "/" +:+ PyStr.join "/" (y :: cs)).
    split; [|split].
    + destruct x; [congruence | rewrite append_cons; discriminate].
    + rewrite endswith_app.
      * rewrite (endswith_app "/"); assumption.
      * discriminate.
    + destruct x as [|a x]; [congruence|]. cbn [has_slash] in Hs.
      apply orb_false_iff in Hs as [Ha _]. rewrite append_cons.
      now rewrite startswith_slash_cons.
Qed.

Lemma valid_name_no_leading_slash b :
  valid_name b = true → PyStr.startswith b "/" = false.
Proof.
  intros Hb.
  destruct (join_valid_shape [b] ltac:(discriminate) ltac:(now constructor)) as (_ & _ & H).
  exact H.
Qed.

(** Joining a normal absolute path with a name. *)
Lemma join_abs cs b :
  Forall (fun c => valid_name c = true) cs → valid_name b = true →
  OsPath.join (abs_of cs) b = abs_of (cs ++ [b]).
Proof.
  intros Hcs Hb. unfold OsPath.join.
  change (String OsPath.sep "") with "/".
  rewrite (valid_name_no_leading_slash b Hb).
  unfold abs_of. destruct cs as [|c cs].
  - reflexivity.
  - destruct (join_valid_shape (c :: cs) ltac:(discriminate) Hcs) as (Hn & He & _).
    change (("/" +:+ PyStr.join "/" (c :: cs)) =? "")%string with false.
    change OsPath.sep with "/"%char.
    rewrite (endswith_app "/" _ Hn), He. cbn [orb].
    rewrite join_snoc by discriminate. now rewrite !append_assoc.
Qed.

Lemma valid_names_no_slash cs :
  Forall (fun c => valid_name c = true) cs → Forall (fun c => has_slash c = false) cs.
Proof.
  intros H. eapply List.Forall_impl; [|exact H].
  intros c Hc. now apply valid_name_inv in Hc.
Qed.

Lemma split_abs cs :
  Forall (fun c => valid_name c = true) cs →
  PyStr.split "/" (abs_of cs) = "" :: match cs with [] => [""] | _ => cs end.
Proof.
  intros Hcs. unfold abs_of.
  change ("/" +:+ PyStr.join "/" cs) with ("" +:+ "/" +:+ PyStr.join "/" cs).
  rewrite split_app_sep by reflexivity. f_equal.
  destruct cs as [|c cs]; [reflexivity|].
  apply split_join; [discriminate | now apply valid_names_no_slash].
Qed.

Lemma normpath_loop_valid cs :
  Forall (fun c => valid_name c = true) cs →
  ∀ rev_new, OsPath.normpath_loop 1 cs rev_new = rev rev_new ++ cs.
Proof.
  induction 1 as [|c cs Hc _ IH]; intros rev_new.
  - cbn. now rewrite app_nil_r.
  - apply valid_name_inv in Hc as (_ & He & Hd & Hdd).
    cbn [OsPath.normpath_loop]. unfold OsPath.curdir, OsPath.pardir.
    apply String.eqb_neq in He, Hd, Hdd. rewrite He, Hd, Hdd. cbn [orb negb].
    rewrite IH. cbn [rev]. now rewrite <- app_assoc.
Qed.

(** A normal absolute path is a fixed point of [normpath]. *)
Lemma normpath_abs cs :
  Forall (fun c => valid_name c = true) cs → OsPath.normpath (abs_of cs) = abs_of cs.
Proof.
  intros Hcs. unfold OsPath.normpath.
  assert (H1 : (abs_of cs =? "")%string = false) by reflexivity.
  assert (H2 : PyStr.startswith (abs_of cs) "/" = true).
  { unfold abs_of. rewrite append_cons. now rewrite startswith_slash_cons. }
  assert (H3 : PyStr.startswith (abs_of cs) "//" = false).
  { unfold abs_of, PyStr.startswith. rewrite append_cons, append_empty_l.
    cbn [String.prefix]. destruct (ascii_dec "/" "/"); [|congruence].
    destruct cs as [|c cs]; [reflexivity|].
    destruct (join_valid_shape (c :: cs) ltac:(discriminate) Hcs) as (_ & _ & Hs).
    exact Hs. }
  rewrite H1, H2, H3. cbn [andb Z.eqb]. change OsPath.sep with "/"%char.
  rewrite (split_abs cs Hcs). cbn [OsPath.normpath_loop String.eqb orb].
  assert (H4 : OsPath.normpath_loop 1 match cs with [] => [""] | _ :: _ => cs end [] = cs).
  { destruct cs as [|c cs]; [reflexivity|]. now rewrite normpath_loop_valid. }
  change (OsPath.normpath_loop 1 ?l []) with (OsPath.normpath_loop 1 l []).
  rewrite H4. cbn [Pos.eqb]. fold (abs_of cs). now rewrite H1.
Qed.

Lemma abspath_abs cwd cs :
  Forall (fun c => valid_name c = true) cs → OsPath.abspath cwd (abs_of cs) = abs_of cs.
Proof.
  intros Hcs. unfold OsPath.abspath, OsPath.isabs.
  change (String OsPath.sep "") with "/".
  assert (H2 : PyStr.startswith (abs_of cs) "/" = true).
  { unfold abs_of. rewrite append_cons. now rewrite startswith_slash_cons. }
  rewrite H2. now apply normpath_abs.
Qed.

Lemma nonempty_comps_abs cs :
  Forall (fun c => valid_name c = true) cs → OsPath.nonempty_comps (abs_of cs) = cs.
Proof.
  intros Hcs. unfold OsPath.nonempty_comps. change OsPath.sep with "/"%char.
  rewrite (split_abs cs Hcs).
  assert (G : ∀ l, Forall (fun c => valid_name c = true) l →
                   filter (fun x => negb (x =? "")%string) l = l).
  { induction 1 as [|c l Hc _ IH]; [reflexivity|].
    apply valid_name_inv in Hc as (_ & He & _).
    rewrite filter_cons_True; [now rewrite IH|].
    apply String.eqb_neq in He. now rewrite He. }
  rewrite filter_cons_False by (cbn; auto).
  destruct cs as [|c cs]; [reflexivity|]. now apply G.
Qed.

Lemma common_len_prefix cs rest : OsPath.common_len cs (cs ++ rest) = length cs.
Proof.
  induction cs as [|c cs IH]; [now destruct rest|].
  cbn [OsPath.common_len app length]. now rewrite String.eqb_refl, IH.
Qed.

Lemma join_all_valid front p :
  front ≠ [] → Forall (fun c => valid_name c = true) front →
  Forall (fun c => valid_name c = true) p →
  OsPath.join_all (PyStr.join "/" front) p = PyStr.join "/" (front ++ p).
Proof.
  intros Hne Hf Hp. revert front Hne Hf.
  induction Hp as [|b p Hb _ IH]; intros front Hne Hf.
  - now rewrite app_nil_r.
  - cbn [OsPath.join_all].
    destruct (join_valid_shape front Hne Hf) as (Hn & He & _).
    assert (Hj : OsPath.join (PyStr.join "/" front) b = PyStr.join "/" (front ++ [b])).
    { unfold OsPath.join. change (String OsPath.sep "") with "/".
      change OsPath.sep with "/"%char.
      rewrite (valid_name_no_leading_slash b Hb), He.
      apply String.eqb_neq in Hn. rewrite Hn. cbn [orb]. now rewrite join_snoc. }
    rewrite Hj, IH.
    + now rewrite <- app_assoc.
    + now destruct front.
    + apply Forall_app. split; [assumption | now constructor].
Qed.

(** The path of a file relative to a normal absolute directory above it is
    the chain of names that leads to it, joined by the separator. *)
Lemma relpath_below cwd cs rest :
  Forall (fun c => valid_name c = true) cs →
  Forall (fun c => valid_name c = true) rest → rest ≠ [] →
  OsPath.relpath cwd (abs_of (cs ++ rest)) (abs_of cs) = PyStr.join "/" rest.
Proof.
  intros Hcs Hrest Hne. unfold OsPath.relpath.
  assert (Hall : Forall (fun c => valid_name c = true) (cs ++ rest))
    by (apply Forall_app; auto).
  rewrite !abspath_abs, !nonempty_comps_abs by assumption.
  rewrite common_len_prefix, Nat.sub_diag. cbn [repeat app].
  rewrite skipn_app, skipn_all, Nat.sub_diag. cbn [skipn app].
  destruct rest as [|a p]; [congruence|].
  inversion Hrest as [|? ? Ha Hp]; subst.
  exact (join_all_valid [a] p ltac:(discriminate) ltac:(now constructor) Hp).
Qed.

Lemma valid_tree_inv files subdirs :
  valid_tree (Dir files subdirs) = true →
  Forall (fun e : string * fnode => valid_name e.1 = true) files
  ∧ Forall (fun e : string * dir => valid_name e.1 = true ∧ valid_tree e.2 = true) subdirs.
Proof.
  cbn [valid_tree]. intros H. apply andb_true_iff in H as [Hf Hs]. split.
  - apply List.Forall_forall. rewrite forallb_forall in Hf. exact Hf.
  - induction subdirs as [|[dirname sub] subdirs IH]; [constructor|].
    apply andb_true_iff in Hs as [Hs Hrest]. apply andb_true_iff in Hs as [Hn Hsub].
    constructor; [split; assumption | now apply IH].
Qed.

(** In a tree of valid names below a normal absolute path, every file is
    listed with the root its chain of directories leads to. *)
Lemma all_files_roots cs d :
  ∀ chain0 x,
    valid_tree d = true →
    Forall (fun c => valid_name c = true) (cs ++ chain0) →
    In x (all_files chain0 (abs_of (cs ++ chain0)) d) →
    x.2.1.1 = abs_of (cs ++ x.1)
    ∧ Forall (fun c => valid_name c = true) (cs ++ x.1)
    ∧ valid_name x.2.1.2 = true.
Proof.
  induction d as [files subdirs IH] using dir_induction.
  intros chain0 x Hv Hc Hx. apply valid_tree_inv in Hv as [Hfiles Hsubs].
  cbn [all_files] in Hx. apply in_app_or in Hx as [Hx | Hx].
  - apply in_map_iff in Hx as (e & <- & He). cbn [fst snd].
    split; [reflexivity|]. split; [assumption|].
    rewrite List.Forall_forall in Hfiles. auto.
  - induction subdirs as [|[dirname sub] subdirs IHs]; [contradiction|].
    apply Forall_cons in IH as [IH1 IH2]. apply Forall_cons in Hsubs as [[Hn Hsub] Hsubs].
    cbn [fst snd] in *. apply in_app_or in Hx as [Hx | Hx].
    + assert (Hc' : Forall (fun c => valid_name c = true) (cs ++ chain0 ++ [dirname])).
      { rewrite app_assoc. apply Forall_app. split; [assumption | now constructor]. }
      apply (IH1 (chain0 ++ [dirname]) x Hsub Hc').
      rewrite (join_abs _ _ Hc Hn), <- app_assoc in Hx. exact Hx.
    + now apply IHs.
Qed.

Lemma tree_file_paths w cwd cs d chain v :
  Forall (fun c => valid_name c = true) cs →
  w_fs w (abs_of cs) = Some d → valid_tree d = true →
  (chain, v) ∈ tree_files w (abs_of cs) →
  Forall (fun c => valid_name c = true) (chain ++ [v.1.2])
  ∧ visit_path v = abs_of (cs ++ chain ++ [v.1.2])
  ∧ shown_relpath cwd (abs_of cs) v = PyStr.join "/" (chain ++ [v.1.2]).
Proof.
  intros Hcs Hd Hv Hin. unfold tree_files in Hin. rewrite Hd in Hin.
  apply list_elem_of_In in Hin.
  assert (E : abs_of cs = abs_of (cs ++ [])) by now rewrite app_nil_r.
  rewrite E in Hin.
  destruct (all_files_roots cs d [] (chain, v) Hv ltac:(now rewrite app_nil_r) Hin)
    as (Hroot & Hchain & Hname).
  cbn [fst snd] in *. apply Forall_app in Hchain as [_ Hchain].
  assert (Hrest : Forall (fun c => valid_name c = true) (chain ++ [v.1.2])).
  { apply Forall_app. split; [assumption | now constructor]. }
  assert (Hpath : visit_path v = abs_of (cs ++ chain ++ [v.1.2])).
  { unfold visit_path. rewrite Hroot, join_abs, <- app_assoc; [reflexivity| |assumption].
    apply Forall_app. auto. }
  split; [assumption|]. split; [assumption|].
  unfold shown_relpath. rewrite Hpath. apply relpath_below; [assumption..|].
  now destruct chain.
Qed.

Lemma join_injective l1 l2 :
  l1 ≠ [] → l2 ≠ [] →
  Forall (fun c => valid_name c = true) l1 → Forall (fun c => valid_name c = true) l2 →
  PyStr.join "/" l1 = PyStr.join "/" l2 → l1 = l2.
Proof.
  intros H1 H2 V1 V2 E.
  rewrite <- (split_join l1 H1 (valid_names_no_slash _ V1)).
  rewrite <- (split_join l2 H2 (valid_names_no_slash _ V2)).
  now rewrite E.
Qed.

(** X16: when the directory is a normal absolute path and the names in the
    tree are valid file names, the path kept in the metadata of every
    upserted record (the path a query prints) is the chain of directory
    names from the indexed directory down to the file, then the file name,
    joined by "/", and the id is the SHA-256 hex digest of exactly that
    text. *)
Theorem stored_path_is_relative_chain :
  ∀ w directory cs d verbose r,
    OsPath.abspath (w_cwd w) directory = abs_of cs →
    forallb valid_name cs = true →
    w_fs w (abs_of cs) = Some d →
    valid_tree d = true →
    r ∈ upserted (calls_since w (walk_and_index directory verbose w).2) →
    ∃ chain v,
      (chain, v) ∈ tree_files w (abs_of cs)
      ∧ Forall (fun name => name ∉ SKIP_DIRS) chain
      ∧ stored_metadata r = {[ "path" := PyStr.join "/" (chain ++ [v.1.2]) ]}
      ∧ stored_id r = Sha256.hexdigest (PyStr.join "/" (chain ++ [v.1.2])).
Proof.
  intros w directory cs d verbose r Habs Hcs Hd Hv Hr.
  assert (Hcs' : Forall (fun c => valid_name c = true) cs).
  { apply List.Forall_forall. rewrite forallb_forall in Hcs. exact Hcs. }
  apply run_upserted_origin in Hr as (v & content & Hin & _ & _ & ->).
  destruct (run_visits_chain _ _ _ Hin) as (chain & Htree & Hkeep).
  rewrite Habs in Htree.
  destruct (tree_file_paths w (w_cwd w) cs d chain v Hcs' Hd Hv Htree) as (_ & _ & Hrel).
  exists chain, v. split; [assumption|]. split; [assumption|].
  unfold make_record, stored_metadata, stored_id, _file_id. cbn [fst snd].
  rewrite Habs, Hrel. split; reflexivity.
Qed.

Lemma stored_path_is_relative_chain_witness :
  let w := world_of sample_tree in
  let r := make_record "/home/u" "/r" ("/r/src", "m.py", text_file 9 "import os")
                       "import os" in
  r ∈ upserted (calls_since w (walk_and_index "/r" false w).2)
  ∧ ∃ chain v,
      (chain, v) ∈ tree_files w "/r"
      ∧ stored_metadata r = {[ "path" := PyStr.join "/" (chain ++ [v.1.2]) ]}.
Proof.
  intros w r.
  assert (Hr : r ∈ upserted (calls_since w (walk_and_index "/r" false w).2)).
  { apply run_upserted_origin.
    exists ("/r/src", "m.py", text_file 9 "import os"), "import os".
    split; [apply list_elem_of_In; vm_compute; tauto|].
    split; [vm_compute; reflexivity|]. split; reflexivity. }
  split; [exact Hr|].
  destruct (stored_path_is_relative_chain w "/r" ["r"] sample_tree false r
              eq_refl eq_refl eq_refl eq_refl Hr) as (chain & v & H1 & _ & H3 & _).
  exists chain, v. split; assumption.
Defined.

(** X17: under the same conditions two files at different places of the
    tree never get the same relative path: equal paths mean the same chain
    of directories and the same file name. *)
Theorem relative_paths_identify_files :
  ∀ w cwd cs d chain1 v1 chain2 v2,
    forallb valid_name cs = true →
    w_fs w (abs_of cs) = Some d →
    valid_tree d = true →
    (chain1, v1) ∈ tree_files w (abs_of cs) →
    (chain2, v2) ∈ tree_files w (abs_of cs) →
    shown_relpath cwd (abs_of cs) v1 = shown_relpath cwd (abs_of cs) v2 →
    chain1 = chain2 ∧ v1.1.2 = v2.1.2 ∧ visit_path v1 = visit_path v2.
Proof.
  intros w cwd cs d chain1 v1 chain2 v2 Hcs Hd Hv H1 H2 E.
  assert (Hcs' : Forall (fun c => valid_name c = true) cs).
  { apply List.Forall_forall. rewrite forallb_forall in Hcs. exact Hcs. }
  destruct (tree_file_paths w cwd cs d chain1 v1 Hcs' Hd Hv H1) as (V1 & P1 & R1).
  destruct (tree_file_paths w cwd cs d chain2 v2 Hcs' Hd Hv H2) as (V2 & P2 & R2).
  rewrite R1, R2 in E.
  apply join_injective in E; [| now destruct chain1 | now destruct chain2 | assumption..].
  apply app_inj_tail in E as [Ec Ef]. subst chain2.
  split; [reflexivity|]. split; [assumption|]. rewrite P1, P2. now rewrite Ef.
Qed.

Lemma relative_paths_identify_files_witness :
  let w := world_of sample_tree in
  let v1 : visit := ("/r/src", "m.py", text_file 9 "import os") in
  shown_relpath "/home/u" "/r" v1 = "src/m.py"
  ∧ ∀ chain2 v2,
      (chain2, v2) ∈ tree_files w "/r" →
      shown_relpath "/home/u" "/r" v2 = shown_relpath "/home/u" "/r" v1 →
      chain2 = ["src"] ∧ v2.1.2 = "m.py".
Proof.
  intros w v1. split; [vm_compute; reflexivity|].
  intros chain2 v2 H2 E.
  assert (H1 : (["src"], v1) ∈ tree_files w "/r").
  { apply list_elem_of_In. vm_compute. tauto. }
  destruct (relative_paths_identify_files w "/home/u" ["r"] sample_tree chain2 v2 ["src"] v1
              eq_refl eq_refl eq_refl H2 H1 E) as (Ec & Ef & _).
  split; assumption.
Defined.

(** ** The store's own directory *)

Lemma abs_of_injective l1 l2 :
  l1 ≠ [] → l2 ≠ [] →
  Forall (fun c => valid_name c = true) l1 → Forall (fun c => valid_name c = true) l2 →
  abs_of l1 = abs_of l2 → l1 = l2.
Proof.
  intros H1 H2 V1 V2 E. unfold abs_of in E. rewrite !append_cons, !append_empty_l in E.
  injection E as E. now apply join_injective.
Qed.

(** X18: the store persists in the child [.chromadb] of the indexed
    directory, and an indexing run opens no file in that child or anywhere
    below it: the tool never indexes its own database. *)
Theorem store_directory_never_read :
  ∀ w directory cs d verbose p rest,
    OsPath.abspath (w_cwd w) directory = abs_of cs →
    forallb valid_name cs = true →
    w_fs w (abs_of cs) = Some d →
    valid_tree d = true →
    forallb valid_name rest = true →
    rest ≠ [] →
    p ∈ opened_since w (walk_and_index directory verbose w).2 →
    run_collection w directory = abs_of (cs ++ [DEFAULT_DB_DIR])
    ∧ p ≠ abs_of ((cs ++ [DEFAULT_DB_DIR]) ++ rest).
Proof.
  intros w directory cs d verbose p rest Habs Hcs Hd Hv Hrest Hne Hp.
  assert (Hcs' : Forall (fun c => valid_name c = true) cs).
  { apply List.Forall_forall. rewrite forallb_forall in Hcs. exact Hcs. }
  assert (Hrest' : Forall (fun c => valid_name c = true) rest).
  { apply List.Forall_forall. rewrite forallb_forall in Hrest. exact Hrest. }
  assert (Hdb : valid_name DEFAULT_DB_DIR = true) by reflexivity.
  split.
  - unfold run_collection, get_client, get_db_path. rewrite Habs.
    now apply join_abs.
  - apply run_opened_origin in Hp as (v & Hin & _ & ->).
    destruct (run_visits_chain _ _ _ Hin) as (chain & Htree & Hkeep).
    rewrite Habs in Htree.
    destruct (tree_file_paths w (w_cwd w) cs d chain v Hcs' Hd Hv Htree) as (Hval & Hpath & _).
    rewrite Hpath. intros E. rewrite <- !app_assoc in E.
    apply abs_of_injective in E.
    + apply app_inv_head in E. cbn [app] in E.
      destruct chain as [|c chain].
      * cbn [app] in E. injection E as _ E. symmetry in E. contradiction.
      * cbn [app] in E. injection E as Ec _. subst c.
        apply Forall_cons in Hkeep as [Hk _]. apply Hk.
        refine (bool_decide_unpack _ _). vm_compute. exact I.
    + intros H0. apply app_eq_nil in H0 as [_ H0]. now destruct chain.
    + intros H0. apply app_eq_nil in H0 as [_ H0]. discriminate H0.
    + apply Forall_app. auto.
    + apply Forall_app. split; [assumption|]. now constructor.
Qed.

Lemma store_directory_never_read_witness :
  let w := world_of (Dir [ ("a.txt", text_file 5 "hello") ]
                         [ (".chromadb", Dir [ ("chroma.sqlite3", text_file 9 "SQLite 3 ") ]
                                             []) ]) in
  "/r/a.txt" ∈ opened_since w (walk_and_index "/r" false w).2
  ∧ run_collection w "/r" = "/r/.chromadb"
  ∧ ("/r/.chromadb/chroma.sqlite3" ∉ opened_since w (walk_and_index "/r" false w).2).
Proof.
  intros w.
  assert (H1 : "/r/a.txt" ∈ opened_since w (walk_and_index "/r" false w).2).
  { apply list_elem_of_In. vm_compute. tauto. }
  split; [exact H1 | split; [reflexivity|]].
  intros Hp.
  exact (proj2 (store_directory_never_read w "/r" ["r"] _ false _ ["chroma.sqlite3"]
                  eq_refl eq_refl eq_refl eq_refl eq_refl ltac:(discriminate) Hp) eq_refl).
Defined.

(** ** The number of upsert calls *)


